(** * convert_matrix: the conversion pipeline of [MainWindow::runConversion]

    A shallow embedding of the worker lambda of
    [gui::MainWindow::runConversion] (src/gui_main_window.cpp, lines 92-216):
    reading the input file line by line, extracting the doubles of every
    line, dropping empty rows, checking that the matrix is rectangular, the
    optional transposition, and writing the rows to one file or to one file
    per row.

    Conventions of the embedding:
    - [std::string] is [string]; iterators into a string are offsets ([nat]).
    - [std::vector<double>] is [list double], the matrix a list of rows.
    - [double] is an IEEE 754 binary64 value, [spec_float] at precision 53.
    - [size_t] is [N] and [++nLine] wraps at [2^64].
    - [CU_THROW(msg)] ends the run with the exception carrying [msg].
    - the files are a finite map from paths to contents, threaded through;
      a [device] says which files can be opened for writing and how many
      bytes each takes, so that failing writes can be stated;
    - the input stream is given by what lines 94 and 99 leave of it:
      whether it was opened, the lines drawn from it, and its state. *)

From Stdlib Require Import ZArith NArith Ascii String DecimalString DecimalN.
From Stdlib Require Import SpecFloat.
From stdpp Require Import base option list strings gmap.

(** ** Characters and strings *)

Module Chars.

(** [std::isspace] in the classic locale: space, \t, \n, \v, \f, \r. *)
Definition isspace (c : ascii) : bool :=
  let n := nat_of_ascii c in
  (n =? 32)%nat || ((9 <=? n)%nat && (n <=? 13)%nat).

Definition isdigit (c : ascii) : bool :=
  let n := nat_of_ascii c in (48 <=? n)%nat && (n <=? 57)%nat.

Definition digit_value (c : ascii) : Z := Z.of_nat (nat_of_ascii c) - 48.

Definition is_plus (c : ascii) : bool := (nat_of_ascii c =? 43)%nat.
Definition is_minus (c : ascii) : bool := (nat_of_ascii c =? 45)%nat.
Definition is_point (c : ascii) : bool := (nat_of_ascii c =? 46)%nat.
Definition is_exp (c : ascii) : bool :=
  let n := nat_of_ascii c in (n =? 101)%nat || (n =? 69)%nat.

(** The line terminator written by [std::endl]. *)
Definition newline : ascii := ascii_of_nat 10.

(** The double quote in the text of line 105. *)
Definition double_quote : ascii := ascii_of_nat 34.

End Chars.

(** ** [double]: binary64 values and their text form *)

Module Double.

Import Chars.

Definition prec : Z := 53.
Definition emax : Z := 1024.

Definition double : Type := spec_float.

(** *** Extraction, [std::istream::operator>>(double&)]

    The sentry skips leading white space; [num_get] then accumulates the
    longest run of characters that can start a decimal floating literal
    (stage 2) and hands it to [strtod] (stage 3). *)

Fixpoint skipws (s : string) : string :=
  match s with
  | String c s' => if isspace c then skipws s' else s
  | EmptyString => EmptyString
  end.

(** Stage 2, the classic-locale loop: digits, at most one decimal point
    before the exponent, and one exponent marker (after a digit) with an
    optional sign directly behind it.  [after_e] holds while the character
    behind the exponent marker is being looked at. *)
Fixpoint extract_digits (found_mantissa found_dec found_sci after_e : bool)
    (s : string) : string * string :=
  match s with
  | EmptyString => (EmptyString, EmptyString)
  | String c s' =>
      if after_e && (is_plus c || is_minus c) then
        let '(x, r) := extract_digits found_mantissa found_dec found_sci false s' in
        (String c x, r)
      else if isdigit c then
        let '(x, r) := extract_digits true found_dec found_sci false s' in
        (String c x, r)
      else if is_point c && negb found_dec && negb found_sci then
        let '(x, r) := extract_digits found_mantissa true found_sci false s' in
        (String c x, r)
      else if is_exp c && negb found_sci && found_mantissa then
        let '(x, r) := extract_digits found_mantissa found_dec true true s' in
        (String "e" x, r)
      else (EmptyString, s)
  end.

(** The run of leading zeros, of which one is kept. *)
Fixpoint skip_zeros (s : string) : string :=
  match s with
  | String "0" s' => skip_zeros s'
  | _ => s
  end.

Definition extract_mantissa (s : string) : string * string :=
  match s with
  | String "0" s' =>
      let '(x, r) := extract_digits true false false false (skip_zeros s') in
      (String "0" x, r)
  | _ => extract_digits false false false false s
  end.

(** [_M_extract_float]: the optional sign, then the mantissa and exponent.
    Returns the accumulated characters and the unread rest of the stream. *)
Definition extract_float (s : string) : string * string :=
  match s with
  | String c s' =>
      if is_plus c || is_minus c then
        let '(x, r) := extract_mantissa s' in (String c x, r)
      else extract_mantissa s
  | EmptyString => (EmptyString, EmptyString)
  end.

(** Stage 3, [strtod] on the accumulated characters. *)
Fixpoint read_digits (acc : Z) (n : nat) (s : string) : Z * nat * string :=
  match s with
  | String c s' =>
      if isdigit c then read_digits (10 * acc + digit_value c) (S n) s'
      else (acc, n, s)
  | EmptyString => (acc, n, s)
  end.

Definition read_sign (s : string) : bool * string :=
  match s with
  | String c s' =>
      if is_minus c then (true, s') else if is_plus c then (false, s') else (false, s)
  | EmptyString => (false, s)
  end.

(** The value [m * 10^e10] with sign [neg], rounded to nearest even. *)
Definition of_decimal (neg : bool) (m e10 : Z) : double :=
  match m with
  | Zpos pm =>
      match e10 with
      | Zneg k =>
          SFdiv prec emax (S754_finite neg pm 0)
                (S754_finite false (Pos.pow 10 k) 0)
      | _ => binary_normalize prec emax (if neg then - (m * 10 ^ e10) else m * 10 ^ e10) 0 neg
      end
  | _ => S754_zero neg
  end%Z.

(** [strtod]: the value and the unconsumed rest, [None] when no conversion
    can be performed. *)
Definition strtod (s : string) : option (double * string) :=
  let '(neg, s1) := read_sign s in
  let '(ip, ni, s2) := read_digits 0 0 s1 in
  let '(m, nf, s3) :=
    match s2 with
    | String c s2' => if is_point c then read_digits ip 0 s2' else (ip, 0%nat, s2)
    | EmptyString => (ip, 0%nat, s2)
    end in
  if (ni + nf =? 0)%nat then None
  else
    let no_exp := Some (of_decimal neg m (- Z.of_nat nf), s3) in
    match s3 with
    | String c s3' =>
        if is_exp c then
          let '(eneg, s4) := read_sign s3' in
          let '(ev, ne, s5) := read_digits 0 0 s4 in
          if (ne =? 0)%nat then no_exp
          else Some (of_decimal neg m ((if eneg then - ev else ev) - Z.of_nat nf), s5)
        else no_exp
    | EmptyString => no_exp
    end%Z.

(** [__convert_to_v]: the whole field must convert and must not
    overflow. *)
Definition convert_to_v (xtrc : string) : option double :=
  match strtod xtrc with
  | Some (S754_infinity _, _) => None
  | Some (v, EmptyString) => Some v
  | _ => None
  end.

(** One formatted extraction from a stream in a good state: the value, or
    [None] with [failbit]; the unread rest.  [eofbit] is set exactly when
    the rest is empty. *)
Definition get_double (s : string) : option double * string :=
  match skipws s with
  | EmptyString => (None, EmptyString)
  | s1 =>
      let '(xtrc, rest) := extract_float s1 in
      (convert_to_v xtrc, rest)
  end.

End Double.

(** ** Unsigned integers as text *)

(** [std::to_string] on a [size_t]: the decimal digits, no sign, no leading
    zeros. *)
Definition to_string (n : N) : string :=
  NilEmpty.string_of_uint (N.to_uint n).

(** [size_t] is 64 bits wide; [++nLine] wraps around. *)
Definition size_max : N := 2 ^ 64.

Definition incr (nLine : N) : N := ((nLine + 1) mod size_max)%N.

Module Format.

Import Chars Double.

(** *** Insertion, [std::ostream::operator<<(double)]

    The stream keeps its defaults: [num_put] formats as [printf] does with
    ["%.6g"], that is with six significant digits, in fixed notation when
    the decimal exponent [X] satisfies [-4 <= X < 6] and in scientific
    notation otherwise, trailing zeros of the fraction removed. *)

Definition precision : Z := 6.

(** [10^x * den <= num], for any sign of [x]. *)
Definition pow10_le (num den x : Z) : bool :=
  (if 0 <=? x then 10 ^ x * den <=? num else den <=? num * 10 ^ (- x))%Z.

(** The largest [x], from [start] downwards, with [10^x <= num/den]. *)
Fixpoint floor_log10 (fuel : nat) (num den start : Z) : Z :=
  match fuel with
  | O => start
  | S fuel' =>
      if pow10_le num den start then start
      else floor_log10 fuel' num den (start - 1)%Z
  end.

(** [a / b] rounded to the nearest integer, ties to even. *)
Definition round_half_even (a b : Z) : Z :=
  let q := (a / b)%Z in
  let r := (a mod b)%Z in
  match (2 * r ?= b)%Z with
  | Lt => q
  | Gt => (q + 1)%Z
  | Eq => if Z.even q then q else (q + 1)%Z
  end.

(** The six significant digits of [num/den] and its decimal exponent.
    A finite binary64 value other than zero lies between [10^-324] and
    [10^309], within the 800 steps of the search from [400] downwards. *)
Definition significand (num den : Z) : Z * Z :=
  let x0 := floor_log10 800 num den 400 in
  let shift := (x0 - (precision - 1))%Z in
  let q :=
    if (0 <=? shift)%Z then round_half_even num (den * 10 ^ shift)
    else round_half_even (num * 10 ^ (- shift)) den in
  if (q =? 10 ^ precision)%Z then (10 ^ (precision - 1), x0 + 1)%Z else (q, x0).

Fixpoint strip_zeros (s : string) : string :=
  match s with
  | EmptyString => EmptyString
  | String c s' =>
      match strip_zeros s' with
      | EmptyString => if Ascii.eqb c "0" then EmptyString else String c EmptyString
      | t => String c t
      end
  end.

Fixpoint zeros (n : nat) : string :=
  match n with
  | O => EmptyString
  | S n' => String "0" (zeros n')
  end.

Definition with_fraction (int frac : string) : string :=
  match strip_zeros frac with
  | EmptyString => int
  | f => int +:+ "." +:+ f
  end.

(** The exponent field of the scientific notation: a sign and at least two
    digits. *)
Definition exponent_field (x : Z) : string :=
  let a := Z.to_N (Z.abs x) in
  "e" +:+ (if (x <? 0)%Z then "-" else "+")
      +:+ (if (a <? 10)%N then "0" else "") +:+ to_string a.

Definition format_g (num den : Z) : string :=
  let '(q, x) := significand num den in
  let ds := to_string (Z.to_N q) in
  if ((-4 <=? x) && (x <? precision))%Z then
    if (0 <=? x)%Z then
      let k := S (Z.to_nat x) in
      with_fraction (substring 0 k ds) (substring k (String.length ds - k) ds)
    else
      with_fraction "0" (zeros (Z.to_nat (- x - 1)) +:+ ds)
  else
    with_fraction (substring 0 1 ds) (substring 1 (String.length ds - 1) ds)
      +:+ exponent_field x.

Definition put_double (d : double) : string :=
  match d with
  | S754_zero s => if s then "-0" else "0"
  | S754_infinity s => if s then "-inf" else "inf"
  | S754_nan => "nan"
  | S754_finite s m e =>
      (if s then "-" else "") +:+
      match e with
      | Zneg k => format_g (Zpos m) (Zpos (Pos.pow 2 k))
      | _ => format_g (Zpos m * 2 ^ e) 1
      end
  end.

End Format.

(** ** The run: exceptions, streams and files *)

(** A run either completes or is ended by [CU_THROW] with a message. *)
Inductive result (A : Type) : Type :=
| Ok (a : A)
| Throw (what : string).
Arguments Ok {A} a.
Arguments Throw {A} what.

(** The input values of [runConversion], read from the widgets. *)
Record request : Type := Request {
  inputFileName : string;
  shallTranspose : bool;
  shallCreateFileForEachRow : bool;
  outputFileNames : string;
  replaceString : string
}.

Abbreviation row := (list Double.double).
Abbreviation matrix := (list (list Double.double)).
Abbreviation files := (gmap string string).

(** What the storage accepts, per path: [None] when the file cannot be
    opened for writing, otherwise the number of bytes that can be written
    to it before the device refuses. *)
Definition device : Type := string -> option nat.

Module Stream.

Import Chars Double Format.

(** *** [std::ifstream]

    The input stream as the checks of lines 96, 101 and 104 find it:
    whether [std::ifstream inputFile{ inputFileName }] has opened the file,
    the lines that [cu::extractByLine( inputFile )] has drawn from it, and
    the [bad()] and [eof()] that this reading has left.  A directory, for
    one, is opened and turns bad at the first read. *)
Record ifstream : Type := IFStream {
  is_open : bool;
  extracted : list string;
  bad : bool;
  eof : bool
}.

(** *** [std::istringstream] *)

Record istringstream : Type := IStream {
  unread : string;
  eofbit : bool;
  failbit : bool
}.

Definition istringstream_of (line : string) : istringstream :=
  IStream line false false.

(** [in >> value]: the sentry refuses a stream that is not good;
    otherwise the extraction runs, and the stream records whether it
    failed and whether it came to the end of the line. *)
Definition extract (ins : istringstream) : option double * istringstream :=
  if eofbit ins || failbit ins then (None, IStream (unread ins) (eofbit ins) true)
  else
    let '(v, rest) := get_double (unread ins) in
    (v, IStream rest (if rest is EmptyString then true else false)
                (if v is None then true else false)).

(** [std::copy(std::istream_iterator<double>(in), std::istream_iterator<double>(), std::back_inserter(row))]:
    values are appended until an extraction fails.  Every successful
    extraction consumes a character, so [fuel] above the length of the
    line is never used up. *)
Fixpoint copy_doubles (fuel : nat) (ins : istringstream) : row * istringstream :=
  match fuel with
  | O => ([], ins)
  | S fuel' =>
      match extract ins with
      | (Some x, ins') =>
          let '(xs, ins'') := copy_doubles fuel' ins' in (x :: xs, ins'')
      | (None, ins') => ([], ins')
      end
  end.

(** *** [std::ofstream] *)

Record ofstream : Type := OStream {
  path : string;
  good : bool;
  room : nat
}.

(** Opening truncates or creates the file; a file that cannot be opened
    leaves the stream failed and the files untouched. *)
Definition open (dev : device) (name : string) (fs : files) : ofstream * files :=
  match dev name with
  | Some n => (OStream name true n, <[name := EmptyString]> fs)
  | None => (OStream name false 0, fs)
  end.

(** A flushed write of [text]: nothing on a failed stream; a write that
    exceeds the room stores what fits and leaves the stream bad. *)
Definition write (os : ofstream) (text : string) (fs : files) : ofstream * files :=
  if good os then
    if (String.length text <=? room os)%nat then
      (OStream (path os) true (room os - String.length text),
       alter (fun c => c +:+ text) (path os) fs)
    else
      (OStream (path os) false 0,
       alter (fun c => c +:+ substring 0 (room os) text) (path os) fs)
  else (os, fs).

(** [std::copy(begin(row), end(row), std::ostream_iterator<double>(outputFile, " "))]
    followed by [outputFile << std::endl]: every value is followed by the
    delimiter, the line by the terminator. *)
Fixpoint copy_row (r : row) : string :=
  match r with
  | [] => EmptyString
  | x :: r' => put_double x +:+ " " +:+ copy_row r'
  end.

Definition row_text (r : row) : string :=
  copy_row r +:+ String newline EmptyString.

End Stream.

(** ** Helpers of cpp_utils *)

Module cu.

(** Modelled from the spec: [cu::extractByLine] (cpp_utils/extract_by_line.h)
    is not among the sources.  The content is split at the line terminator;
    trailing content without a terminator is the final line. *)
Fixpoint extractByLine (content : string) : list string :=
  match content with
  | EmptyString => []
  | String c s =>
      if Ascii.eqb c Chars.newline then EmptyString :: extractByLine s
      else
        match extractByLine s with
        | [] => [String c EmptyString]
        | l :: ls => String c l :: ls
        end
  end.

(** Modelled from the spec: [cu::findBoyerMoore] (cpp_utils/more_algorithms.h)
    is not among the sources.  It locates the first (leftmost) occurrence of
    the pattern as a contiguous substring of the text and returns the
    iterator to it, the end of the text when there is none. *)
Fixpoint findBoyerMoore (pat text : string) : nat :=
  if String.prefix pat text then 0
  else
    match text with
    | EmptyString => 0
    | String _ text' => S (findBoyerMoore pat text')
    end.

(** Modelled from the spec: [cu::for_each] over two ranges
    (cpp_utils/more_algorithms.h) is not among the sources.  As the
    transposition needs it, the function is applied to the elements of both
    ranges in lockstep.  Here the function is [t.push_back(x)] and the
    second range is updated in place; the ranges have the same length in
    every call of a run, and the shorter one ends the loop here. *)
Fixpoint for_each {A : Type} (r : list A) (transposed : list (list A)) : list (list A) :=
  match r, transposed with
  | x :: r', t :: ts => (t ++ [x]) :: for_each r' ts
  | _, _ => transposed
  end.

End cu.

(** ** [MainWindow::runConversion] *)

Import Stream.

(** Lines 108-123: the values of each line.  A line that leaves the stream
    short of its end stops the run. *)
Fixpoint extract_values (inputFileName : string) (nLine : N)
    (lines : list string) (m : matrix) : result matrix :=
  match lines with
  | [] => Ok m
  | line :: lines' =>
      let nLine := incr nLine in
      let '(r, ins) := copy_doubles (S (String.length line)) (istringstream_of line) in
      if negb (eofbit ins) then
        Throw ("Line " +:+ to_string nLine +:+ " in file '" +:+ inputFileName
                 +:+ "' could not be parsed to the end.")
      else extract_values inputFileName nLine lines' (m ++ [r])
  end.

(** Lines 125-129: [std::remove_if] with [std::vector<double>::empty]. *)
Definition remove_empty_rows {A : Type} (m : list (list A)) : list (list A) :=
  filter (fun r => length r ≠ 0) m.

(** Lines 135-144: every row against the first one. *)
Fixpoint check_rows {A : Type} (front_size : nat) (nLine : N)
    (m : list (list A)) : result unit :=
  match m with
  | [] => Ok tt
  | r :: m' =>
      let nLine := incr nLine in
      if negb (length r =? front_size) then
        Throw ("Row " +:+ to_string nLine +:+
               "of the matrix contains a different number of samples than the first row.")
      else check_rows front_size nLine m'
  end.

(** Lines 148-154: [transposed] starts as [front_size] empty vectors and
    receives every row, element by element. *)
Definition transposed {A : Type} (front_size : nat) (m : list (list A)) : list (list A) :=
  foldl (fun t r => cu.for_each r t) (replicate front_size []) m.

(** The transposition step on its own; [matrix.front()] needs a row. *)
Definition transpose {A : Type} (m : list (list A)) : option (list (list A)) :=
  match m with
  | [] => None
  | front :: _ => Some (transposed (length front) m)
  end.

(** Lines 171-174: the output pattern before and behind the match. *)
Definition outputFileNamesFirstPart (it : nat) (outputFileNames : string) : string :=
  substring 0 it outputFileNames.

Definition outputFileNamesLastPart (it : nat) (replaceString outputFileNames : string)
    : string :=
  substring (it + String.length replaceString)
            (String.length outputFileNames - (it + String.length replaceString))
            outputFileNames.

(** Lines 179-182: the name of the file of row [nLine]. *)
Definition outputFileName (firstPart lastPart : string) (nLine : N) : string :=
  firstPart +:+ to_string nLine +:+ lastPart.

(** Lines 175-192: one file per row, named by the row number. *)
Fixpoint write_each_row (dev : device) (firstPart lastPart : string) (nLine : N)
    (m : matrix) (fs : files) : result unit * files :=
  match m with
  | [] => (Ok tt, fs)
  | r :: m' =>
      let nLine := incr nLine in
      let name := outputFileName firstPart lastPart nLine in
      let '(outputFile, fs) := open dev name fs in
      let '(outputFile, fs) := write outputFile (row_text r) fs in
      if negb (good outputFile) then
        (Throw ("Failed to write row " +:+ to_string nLine +:+ " to the file '"
                  +:+ name +:+ "'."), fs)
      else write_each_row dev firstPart lastPart nLine m' fs
  end.

(** Lines 198-209: all rows to the one open file. *)
Fixpoint write_rows (outputFileNames : string) (outputFile : ofstream) (nLine : N)
    (m : matrix) (fs : files) : result unit * files :=
  match m with
  | [] => (Ok tt, fs)
  | r :: m' =>
      let nLine := incr nLine in
      let '(outputFile, fs) := write outputFile (row_text r) fs in
      if negb (good outputFile) then
        (Throw ("Failed to write row " +:+ to_string nLine +:+ " to the file '"
                  +:+ outputFileNames +:+ "'."), fs)
      else write_rows outputFileNames outputFile nLine m' fs
  end.

(** Lines 158-210: the output, to one file per row or to a single file. *)
Definition write_matrix (dev : device) (req : request) (m : matrix) (fs : files)
    : result unit * files :=
  if shallCreateFileForEachRow req then
    if String.eqb (replaceString req) EmptyString then
      (Throw "No characters to be replaced in the output file pattern have been specified.", fs)
    else
      let it := cu.findBoyerMoore (replaceString req) (outputFileNames req) in
      if (it =? String.length (outputFileNames req))%nat then
        (Throw "Replacement characters could not be found in the output file pattern.", fs)
      else
        write_each_row dev
          (outputFileNamesFirstPart it (outputFileNames req))
          (outputFileNamesLastPart it (replaceString req) (outputFileNames req))
          0 m fs
  else
    let '(outputFile, fs) := open dev (outputFileNames req) fs in
    write_rows (outputFileNames req) outputFile 0 m fs.

(** Lines 108-156: from the lines of the input to the matrix that is
    written. *)
Definition read_matrix (req : request) (lines : list string) : result matrix :=
  match extract_values (inputFileName req) 0 lines [] with
  | Throw e => Throw e
  | Ok m =>
      match remove_empty_rows m with
      | [] => Throw ("The file '" +:+ inputFileName req +:+ "' does not contain samples.")
      | (front :: _) as m =>
          match check_rows (length front) 0 m with
          | Throw e => Throw e
          | Ok _ =>
              Ok (if shallTranspose req then transposed (length front) m else m)
          end
      end
  end.

(** Lines 93-210, the worker that [runConversion] hands to the conversion
    thread, on the input stream as lines 94 and 99 leave it: the three
    checks of the stream, then the matrix and the output. *)
Definition conversion (dev : device) (req : request) (inputFile : ifstream)
    (fs : files) : result unit * files :=
  if negb (is_open inputFile) then
    (Throw ("Could not open the file '" +:+ inputFileName req +:+ "'."), fs)
  else if bad inputFile then
    (Throw ("The file '" +:+ inputFileName req +:+ "' could not be read."), fs)
  else if negb (eof inputFile) then
    (Throw ("The end of the file '" +:+ String Chars.double_quote "'"
              +:+ inputFileName req +:+ "' has not been reached."), fs)
  else
    match read_matrix req (extracted inputFile) with
    | Throw e => (Throw e, fs)
    | Ok m => write_matrix dev req m fs
    end.

(** Lines 94 and 99 on the files of the embedding.  A path that holds no
    file cannot be opened.  A file is read whole by [cu.extractByLine],
    which is modelled from the spec: the stream is left at its end and not
    bad.  Inputs that are opened and then fail to be read (a directory, a
    failing device) are not among the [files]; they are the other streams
    of [conversion]. *)
Definition inputFile (fs : files) (inputFileName : string) : ifstream :=
  match fs !! inputFileName with
  | None => IFStream false [] false false
  | Some content => IFStream true (cu.extractByLine content) false true
  end.

(** A run on the files [fs]. *)
Definition runConversion (dev : device) (req : request) (fs : files)
    : result unit * files :=
  conversion dev req (inputFile fs (inputFileName req)) fs.


(** ** Notions used in the statements *)

(** The exceptions of a run, by the line of [runConversion] that throws
    them. *)
Module Error.

(** Line 97. *)
Definition could_not_open (inputFileName : string) : string :=
  "Could not open the file '" +:+ inputFileName +:+ "'.".

(** Line 102. *)
Definition could_not_be_read (inputFileName : string) : string :=
  "The file '" +:+ inputFileName +:+ "' could not be read.".

(** Line 105. *)
Definition end_not_reached (inputFileName : string) : string :=
  "The end of the file '" +:+ String Chars.double_quote "'" +:+ inputFileName
    +:+ "' has not been reached.".

(** Line 120. *)
Definition could_not_be_parsed (nLine : N) (inputFileName : string) : string :=
  "Line " +:+ to_string nLine +:+ " in file '" +:+ inputFileName
    +:+ "' could not be parsed to the end.".

(** Line 132. *)
Definition no_samples (inputFileName : string) : string :=
  "The file '" +:+ inputFileName +:+ "' does not contain samples.".

(** Line 141. *)
Definition different_number_of_samples (nLine : N) : string :=
  "Row " +:+ to_string nLine +:+
  "of the matrix contains a different number of samples than the first row.".

(** Line 161. *)
Definition nothing_to_replace : string :=
  "No characters to be replaced in the output file pattern have been specified.".

(** Line 169. *)
Definition replacement_not_found : string :=
  "Replacement characters could not be found in the output file pattern.".

(** Lines 188 and 205. *)
Definition failed_to_write (nLine : N) (name : string) : string :=
  "Failed to write row " +:+ to_string nLine +:+ " to the file '" +:+ name +:+ "'.".

End Error.

(** Column [j] of a matrix: element [j] of every row that has one. *)
Definition column {A : Type} (j : nat) (m : list (list A)) : list A :=
  omap (.!! j) m.

(** An [R]x[C] matrix: [R] rows of [C] elements each. *)
Definition rectangular {A : Type} (R C : nat) (m : list (list A)) : Prop :=
  length m = R ∧ Forall (fun r => length r = C) m.

(** Element [j] of row [i]. *)
Definition entry {A : Type} (m : list (list A)) (i j : nat) : option A :=
  m !! i ≫= (.!! j).

(** The row and the final stream state of one line. *)
Definition parse_line (line : string) : row * istringstream :=
  copy_doubles (S (String.length line)) (istringstream_of line).

(** The line was read to its end. *)
Definition parsed_to_end (line : string) : Prop :=
  eofbit (parse_line line).2 = true.

(** A line of white space only, the empty line included. *)
Fixpoint blank (line : string) : bool :=
  match line with
  | EmptyString => true
  | String c s => Chars.isspace c && blank s
  end.

(** Sample data for the examples. *)
Module Sample.

(** The double that a text denotes. *)
Definition num (text : string) : Double.double :=
  default (S754_zero false) (Double.get_double text).1.

Definition nl : string := String Chars.newline EmptyString.

Definition request_of (transpose split : bool) (out token : string) : request :=
  Request "in.txt" transpose split out token.

Definition plenty : device := fun _ => Some 4096.

End Sample.

(** Opening a file and writing one text to it, as lines 183-186 do. *)
Definition write_file (dev : device) (name text : string) (fs : files)
    : ofstream * files :=
  let '(outputFile, fs) := open dev name fs in write outputFile text fs.

(** The device opens [name] and takes [text] whole. *)
Definition fits (dev : device) (name text : string) : bool :=
  match dev name with
  | Some n => (String.length text <=? n)%nat
  | None => false
  end.

(** The file of the row at index [i], rows counted from 1. *)
Definition file_of_row (firstPart lastPart : string) (i : nat) : string :=
  outputFileName firstPart lastPart (N.of_nat (S i)).

(** The text of all rows, one line per row. *)
Fixpoint matrix_text (m : matrix) : string :=
  match m with
  | [] => EmptyString
  | r :: m' => row_text r +:+ matrix_text m'
  end.

(** The line that a row is to give in an output file, said without the
    writer: the values in their order, each in the format of
    [operator<<] and followed by one blank, and the line terminator. *)
Definition line_of_values (r : row) : string :=
  String.concat EmptyString (map (fun x => Format.put_double x +:+ " ") r)
    +:+ String Chars.newline EmptyString.

(** The lines of the rows, one behind the other. *)
Definition text_of_rows (m : matrix) : string :=
  String.concat EmptyString (map line_of_values m).
(** ** Further notions used in the statements *)

(** The number of occurrences of a character in a text. *)
Fixpoint count_char (c : ascii) (s : string) : nat :=
  match s with
  | EmptyString => 0
  | String d s' => (if Ascii.eqb c d then 1 else 0) + count_char c s'
  end.

(** No character of the text is white space. *)
Fixpoint no_space (s : string) : bool :=
  match s with
  | EmptyString => true
  | String c s' => negb (Chars.isspace c) && no_space s'
  end.

(** A character that can begin the text of a number: a digit, a sign or
    the decimal point. *)
Definition begins_number (c : ascii) : bool :=
  Chars.isdigit c || Chars.is_plus c || Chars.is_minus c || Chars.is_point c.

(** A line of unsigned integers, each followed by a blank. *)
Fixpoint integers_text (ns : list N) : string :=
  match ns with
  | [] => EmptyString
  | n :: ns' => to_string n +:+ " " +:+ integers_text ns'
  end.

(** The double nearest to an unsigned integer. *)
Definition integer_value (n : N) : Double.double :=
  Double.of_decimal false (Z.of_N n) 0.

(** A value other than an infinity and NaN. *)
Definition finite (d : Double.double) : bool :=
  match d with
  | S754_zero _ | S754_finite _ _ _ => true
  | _ => false
  end.
(** ** The run on the files *)

(** A file of [fs] passes the checks of the input stream, so that a run
    on [fs] goes from the content of the input file to the matrix and the
    output. *)
Lemma runConversion_eq dev req fs :
  runConversion dev req fs =
  match fs !! inputFileName req with
  | None => (Throw (Error.could_not_open (inputFileName req)), fs)
  | Some content =>
      match read_matrix req (cu.extractByLine content) with
      | Throw e => (Throw e, fs)
      | Ok m => write_matrix dev req m fs
      end
  end.
Proof.
  unfold runConversion, conversion, inputFile.
  by destruct (fs !! inputFileName req).
Qed.


(** * Properties *)

(** ** Strings *)

Section Strings.

Implicit Types (s t p : string).

Lemma append_nil_l s : EmptyString +:+ s = s.
Proof. reflexivity. Qed.

Lemma append_cons c s t : String c s +:+ t = String c (s +:+ t).
Proof. reflexivity. Qed.

Lemma append_nil_r s : s +:+ EmptyString = s.
Proof.
  induction s as [|c s IH]; [done|]. rewrite append_cons. congruence.
Qed.

Lemma append_assoc s t p : (s +:+ t) +:+ p = s +:+ (t +:+ p).
Proof.
  induction s as [|c s IH]; [done|]. rewrite !append_cons. congruence.
Qed.

Lemma length_append s t :
  String.length (s +:+ t) = String.length s + String.length t.
Proof.
  induction s as [|c s IH]; [done|]. rewrite append_cons. simpl. congruence.
Qed.

Lemma append_inv_r s1 s2 t : s1 +:+ t = s2 +:+ t → s1 = s2.
Proof.
  revert s2. induction s1 as [|c s1 IH]; intros [|d s2];
    rewrite ?append_nil_l, ?append_cons; intros H.
  - done.
  - apply (f_equal String.length) in H. simpl in H.
    rewrite length_append in H. lia.
  - apply (f_equal String.length) in H. simpl in H.
    rewrite length_append in H. lia.
  - injection H as -> H. f_equal. by apply IH.
Qed.

Lemma append_inv_length s1 s2 t1 t2 :
  String.length t1 = String.length t2 →
  s1 +:+ t1 = s2 +:+ t2 → s1 = s2 ∧ t1 = t2.
Proof.
  intros Hlen. revert s2. induction s1 as [|c s1 IH]; intros [|d s2];
    rewrite ?append_nil_l, ?append_cons; intros H.
  - done.
  - apply (f_equal String.length) in H. simpl in H.
    rewrite length_append in H. lia.
  - apply (f_equal String.length) in H. simpl in H.
    rewrite length_append in H. lia.
  - injection H as -> H. destruct (IH _ H) as [-> ->]. done.
Qed.

Lemma concat_cons s (l : list string) :
  String.concat EmptyString (s :: l) = s +:+ String.concat EmptyString l.
Proof.
  destruct l as [|t l]; cbn [String.concat].
  - by rewrite append_nil_r.
  - by rewrite append_nil_l.
Qed.

Lemma substring_all s : substring 0 (String.length s) s = s.
Proof. induction s as [|c s IH]; simpl; congruence. Qed.

Lemma substring_append_l s t : substring 0 (String.length s) (s +:+ t) = s.
Proof.
  induction s as [|c s IH]; rewrite ?append_nil_l, ?append_cons; simpl;
    [by destruct t|congruence].
Qed.

Lemma substring_append_r s t n k :
  substring (String.length s + n) k (s +:+ t) = substring n k t.
Proof.
  induction s as [|c s IH]; rewrite ?append_nil_l, ?append_cons; simpl;
    congruence.
Qed.

Lemma prefix_append s t : String.prefix s (s +:+ t) = true.
Proof.
  induction s as [|c s IH]; rewrite ?append_nil_l, ?append_cons; simpl;
    [by destruct t|].
  destruct (ascii_dec c c); [done|congruence].
Qed.

Lemma prefix_inv s t : String.prefix s t = true → ∃ p, t = s +:+ p.
Proof.
  revert t. induction s as [|c s IH]; intros t.
  - intros _. by exists t.
  - destruct t as [|d t]; simpl; [discriminate|].
    destruct (ascii_dec c d) as [->|]; [|discriminate].
    intros [p ->]%IH. by exists p.
Qed.

End Strings.

(** ** The search for the replacement characters *)

Section Search.

Implicit Types (pat text p s : string).

(** When the pattern occurs, the search returns the offset of an
    occurrence, and no occurrence starts before it. *)
Lemma findBoyerMoore_found pat text p s :
  text = p +:+ pat +:+ s →
  ∃ p' s', text = p' +:+ pat +:+ s' ∧
           cu.findBoyerMoore pat text = String.length p' ∧
           String.length p' ≤ String.length p.
Proof.
  revert p. induction text as [|c text IH]; intros p Htext.
  - destruct p; [|discriminate]. destruct pat; [|discriminate].
    exists EmptyString, s. split; [done|]. split; [done|simpl; lia].
  - cbn [cu.findBoyerMoore].
    destruct (String.prefix pat (String c text)) eqn:Hpre.
    + apply prefix_inv in Hpre as [s' Hs'].
      exists EmptyString, s'. split; [done|]. split; [done|simpl; lia].
    + destruct p as [|d p].
      * rewrite append_nil_l in Htext.
        rewrite Htext, prefix_append in Hpre. discriminate.
      * rewrite append_cons in Htext. injection Htext as <- Htext.
        destruct (IH p Htext) as (p' & s' & -> & Hfind & Hle).
        exists (String c p'), s'. split; [done|].
        split; [by rewrite Hfind|simpl; lia].
Qed.

(** When the pattern does not occur, the search returns the end. *)
Lemma findBoyerMoore_not_found pat text :
  (∀ p s, text ≠ p +:+ pat +:+ s) →
  cu.findBoyerMoore pat text = String.length text.
Proof.
  induction text as [|c text IH]; intros Hno.
  - cbn [cu.findBoyerMoore]. by destruct (String.prefix pat EmptyString).
  - cbn [cu.findBoyerMoore].
    destruct (String.prefix pat (String c text)) eqn:Hpre.
    + apply prefix_inv in Hpre as [s' Hs']. by destruct (Hno EmptyString s').
    + simpl. f_equal. apply IH. intros p s ->. by apply (Hno (String c p) s).
Qed.

Lemma findBoyerMoore_decomposition pat text p s :
  text = p +:+ pat +:+ s →
  let it := cu.findBoyerMoore pat text in
  text = outputFileNamesFirstPart it text +:+ pat
           +:+ outputFileNamesLastPart it pat text ∧
  String.length (outputFileNamesFirstPart it text) = it ∧
  it ≤ String.length p.
Proof.
  intros Htext it.
  destruct (findBoyerMoore_found pat text p s Htext) as (p' & s' & Hsplit & Hfind & Hle).
  fold it in Hfind. rewrite Hfind.
  unfold outputFileNamesFirstPart, outputFileNamesLastPart.
  rewrite Hsplit at 2 3 4 5.
  rewrite substring_append_l, substring_append_r.
  rewrite !length_append.
  replace (String.length p' + (String.length pat + String.length s')
           - (String.length p' + String.length pat)) with (String.length s') by lia.
  rewrite <- (Nat.add_0_r (String.length pat)) at 1.
  rewrite substring_append_r, substring_all.
  done.
Qed.

End Search.

(** ** What the exceptions tell *)

Section Messages.

Import Chars Error.

(** A text of decimal digits only. *)
Lemma to_string_digits (n : N) :
  ∀ u c s, to_string n = u +:+ String c s → isdigit c = true.
Proof.
  unfold to_string. generalize (N.to_uint n). intros d.
  induction d as [|d IH|d IH|d IH|d IH|d IH|d IH|d IH|d IH|d IH|d IH];
    intros [|e u] c s; cbn [NilEmpty.string_of_uint];
    rewrite ?append_nil_l, ?append_cons;
    try discriminate;
    try (intros [= <- _]; reflexivity);
    try (intros [= _ H]; exact (IH _ _ _ H)).
Qed.

Lemma digits_delimited (u v : string) c d s t :
  (∀ u' c' s', u = u' +:+ String c' s' → isdigit c' = true) →
  (∀ u' c' s', v = u' +:+ String c' s' → isdigit c' = true) →
  isdigit c = false → isdigit d = false →
  u +:+ String c s = v +:+ String d t →
  u = v ∧ String c s = String d t.
Proof.
  intros Hu Hv Hc Hd. revert v Hu Hv.
  induction u as [|e u IH]; intros [|f v] Hu Hv;
    rewrite ?append_nil_l, ?append_cons; intros H.
  - done.
  - injection H as -> _. specialize (Hv EmptyString f v eq_refl). congruence.
  - injection H as <- _. specialize (Hu EmptyString e u eq_refl). congruence.
  - injection H as -> H. destruct (IH v) as [-> ?]; [| |exact H|done].
    + intros u' c' s' E. apply (Hu (String f u') c' s'). by rewrite E.
    + intros u' c' s' E. apply (Hv (String f u') c' s'). by rewrite E.
Qed.

Lemma to_string_inj (a b : N) : to_string a = to_string b → a = b.
Proof.
  unfold to_string. intros H. apply Unsigned.to_uint_inj.
  apply (f_equal NilEmpty.uint_of_string) in H.
  rewrite !NilEmpty.usu in H. congruence.
Qed.

(** A number is told apart from what follows it, when that does not
    start with a digit. *)
Lemma to_string_delimited (a b : N) c d s t :
  isdigit c = false → isdigit d = false →
  to_string a +:+ String c s = to_string b +:+ String d t →
  a = b ∧ String c s = String d t.
Proof.
  intros Hc Hd H.
  destruct (digits_delimited _ _ _ _ _ _ (to_string_digits a) (to_string_digits b)
              Hc Hd H) as [Hab ?].
  split; [by apply to_string_inj|done].
Qed.

(** The exception of an unparsed line determines the number of the line
    and the name of the file. *)
Lemma could_not_be_parsed_inj n f n' f' :
  could_not_be_parsed n f = could_not_be_parsed n' f' → n = n' ∧ f = f'.
Proof.
  unfold could_not_be_parsed. intros H%String.app_inj.
  apply to_string_delimited in H as [-> H]; [|done|done].
  split; [done|]. injection H as H. by apply append_inv_r in H.
Qed.

(** The exception of an empty matrix determines the name of the file. *)
Lemma no_samples_inj f f' : no_samples f = no_samples f' → f = f'.
Proof.
  unfold no_samples. intros H%String.app_inj. by apply append_inv_r in H.
Qed.

(** The exception of a ragged matrix determines the number of the row. *)
Lemma different_number_of_samples_inj n n' :
  different_number_of_samples n = different_number_of_samples n' → n = n'.
Proof.
  unfold different_number_of_samples. intros H%String.app_inj.
  by apply to_string_delimited in H as [-> _].
Qed.

(** The exception of a failed write determines the number of the row and
    the name of the file. *)
Lemma failed_to_write_inj n f n' f' :
  failed_to_write n f = failed_to_write n' f' → n = n' ∧ f = f'.
Proof.
  unfold failed_to_write. intros H%String.app_inj.
  apply to_string_delimited in H as [-> H]; [|done|done].
  split; [done|]. injection H as H. by apply append_inv_r in H.
Qed.

(** The exception of an unreadable file is not that of an empty matrix,
    whatever the names of the files are: the texts end differently. *)
Lemma could_not_be_read_no_samples f f' : could_not_be_read f ≠ no_samples f'.
Proof.
  unfold could_not_be_read, no_samples. intros H%String.app_inj.
  change (f +:+ "' could not be read.")
    with (f +:+ "' could not be rea" +:+ "d.") in H.
  change (f' +:+ "' does not contain samples.")
    with (f' +:+ "' does not contain sample" +:+ "s.") in H.
  rewrite <- !append_assoc in H.
  by apply append_inv_length in H as [_ [=]].
Qed.

End Messages.

(** ** The text of the rows *)

Lemma copy_row_concat (r : row) :
  copy_row r
  = String.concat EmptyString (map (fun x => Format.put_double x +:+ " ") r).
Proof.
  induction r as [|x r IH]; [done|].
  cbn [copy_row map]. by rewrite concat_cons, IH, append_assoc.
Qed.

Lemma row_text_line_of_values (r : row) : row_text r = line_of_values r.
Proof. unfold row_text, line_of_values. by rewrite copy_row_concat. Qed.

Lemma matrix_text_text_of_rows (m : matrix) : matrix_text m = text_of_rows m.
Proof.
  unfold text_of_rows. induction m as [|r m IH]; [done|].
  cbn [matrix_text map]. by rewrite concat_cons, IH, row_text_line_of_values.
Qed.


(** ** The transposition *)

Section Transposition.

Context {A : Type}.
Implicit Types (m t : list (list A)) (r : list A).

Lemma for_each_length r t : length (cu.for_each r t) = length t.
Proof.
  revert t; induction r as [|x r IH]; intros [|c t]; simpl; auto.
Qed.

Lemma for_each_lookup r t j c x :
  t !! j = Some c → r !! j = Some x →
  cu.for_each r t !! j = Some (c ++ [x]).
Proof.
  revert t j; induction r as [|y r IH]; intros [|d t] [|j]; simpl;
    try discriminate.
  - by intros [= ->] [= ->].
  - apply IH.
Qed.

Lemma transposed_snoc n m r :
  transposed n (m ++ [r]) = cu.for_each r (transposed n m).
Proof. unfold transposed. by rewrite foldl_snoc. Qed.

Lemma transposed_length n m : length (transposed n m) = n.
Proof.
  induction m as [|r m IH] using rev_ind.
  - apply length_replicate.
  - by rewrite transposed_snoc, for_each_length.
Qed.

Lemma column_snoc j m r x :
  r !! j = Some x → column j (m ++ [r]) = column j m ++ [x].
Proof. intros Hx. unfold column. rewrite omap_app. simpl. by rewrite Hx. Qed.

(** Row [j] of the transposed matrix is column [j] of the matrix. *)
Lemma transposed_lookup n m j :
  Forall (fun r => length r = n) m → j < n →
  transposed n m !! j = Some (column j m).
Proof.
  intros Hm Hj. induction m as [|r m IH] using rev_ind.
  - unfold transposed; simpl. by apply lookup_replicate_2.
  - rewrite Forall_app, Forall_singleton in Hm. destruct Hm as [Hm Hr].
    destruct (lookup_lt_is_Some_2 r j) as [x Hx]; [lia|].
    rewrite transposed_snoc, (column_snoc _ _ _ x Hx).
    apply for_each_lookup; auto.
Qed.

Lemma column_cons j r m x :
  r !! j = Some x → column j (r :: m) = x :: column j m.
Proof. intros Hx. unfold column. simpl. by rewrite Hx. Qed.

Lemma column_length n m j :
  Forall (fun r => length r = n) m → j < n → length (column j m) = length m.
Proof.
  intros Hm Hj. induction Hm as [|r m Hr _ IH]; [done|].
  destruct (lookup_lt_is_Some_2 r j) as [x Hx]; [lia|].
  rewrite (column_cons _ _ _ x Hx). simpl. by rewrite IH.
Qed.

Lemma column_lookup n m j i r :
  Forall (fun r => length r = n) m → j < n →
  m !! i = Some r → column j m !! i = r !! j.
Proof.
  intros Hm Hj. revert i. induction Hm as [|r' m Hr _ IH]; intros i; [done|].
  destruct (lookup_lt_is_Some_2 r' j) as [x Hx]; [lia|].
  rewrite (column_cons _ _ _ x Hx).
  destruct i as [|i]; simpl.
  - by intros [= ->].
  - apply IH.
Qed.

End Transposition.

Section TransposeLaws.

Context {A : Type}.
Implicit Types (m t : list (list A)).

Lemma rectangular_entry R C m i j :
  rectangular R C m → i < R → j < C → is_Some (entry m i j).
Proof.
  intros [HR HC] Hi Hj. unfold entry.
  destruct (lookup_lt_is_Some_2 m i) as [r Hr]; [lia|].
  rewrite Hr. simpl. apply lookup_lt_is_Some_2.
  rewrite Forall_lookup in HC. rewrite (HC _ _ Hr). done.
Qed.

Lemma rectangular_ext R C m1 m2 :
  rectangular R C m1 → rectangular R C m2 →
  (∀ i j, i < R → j < C → entry m1 i j = entry m2 i j) → m1 = m2.
Proof.
  intros [HR1 HC1] [HR2 HC2] Hent. apply list_eq_same_length with R; auto.
  intros i r1 r2 Hi Hr1 Hr2.
  rewrite Forall_lookup in HC1. rewrite Forall_lookup in HC2.
  apply list_eq_same_length with C; eauto.
  intros j x1 x2 Hj Hx1 Hx2.
  specialize (Hent i j Hi Hj). unfold entry in Hent.
  rewrite Hr1, Hr2 in Hent. simpl in Hent. congruence.
Qed.

Lemma transposed_rectangular R C m :
  rectangular R C m → rectangular C R (transposed C m).
Proof.
  intros [HR HC]. split; [apply transposed_length|].
  apply Forall_lookup. intros j c Hc.
  assert (j < C) as Hj.
  { apply lookup_lt_Some in Hc. by rewrite transposed_length in Hc. }
  rewrite (transposed_lookup C m j HC Hj) in Hc. injection Hc as <-.
  by rewrite (column_length C).
Qed.

Lemma transposed_entry R C m i j :
  rectangular R C m → i < R → j < C →
  entry (transposed C m) j i = entry m i j.
Proof.
  intros [HR HC] Hi Hj. unfold entry.
  rewrite (transposed_lookup C m j HC Hj). simpl.
  destruct (lookup_lt_is_Some_2 m i) as [r Hr]; [lia|].
  rewrite Hr. simpl. by apply (column_lookup C).
Qed.

Lemma transpose_transposed R C m :
  0 < R → rectangular R C m → transpose m = Some (transposed C m).
Proof.
  intros HR [Hlen HC]. destruct m as [|front m]; simpl in *; [lia|].
  apply Forall_cons in HC as [-> _]. done.
Qed.

End TransposeLaws.

(** C9: transposing twice gives the matrix back, for every rectangular
    matrix with at least one row and one column, which is what validation
    hands to the transposition step. *)
Theorem transpose_involutive {A : Type} (m : list (list A)) (R C : nat) :
  0 < R → 0 < C → rectangular R C m →
  transpose m ≫= transpose = Some m.
Proof.
  intros HR HC Hm.
  rewrite (transpose_transposed R C m HR Hm). simpl.
  pose proof (transposed_rectangular R C m Hm) as Ht.
  rewrite (transpose_transposed C R _ HC Ht). f_equal.
  apply (rectangular_ext R C); auto.
  - by apply transposed_rectangular.
  - intros i j Hi Hj.
    rewrite (transposed_entry C R) by auto.
    by apply (transposed_entry R C).
Qed.

Lemma transpose_involutive_witness :
  (0 < 2 ∧ 0 < 3 ∧ rectangular 2 3 [[1; 2; 3]; [4; 5; 6]]) ∧
  transpose [[1; 2; 3]; [4; 5; 6]] ≫= transpose = Some [[1; 2; 3]; [4; 5; 6]].
Proof.
  assert (rectangular 2 3 [[1; 2; 3]; [4; 5; 6]]) as Hm.
  { split; [reflexivity|]. repeat constructor. }
  split; [split; [lia|split; [lia|exact Hm]]|].
  apply (transpose_involutive [[1; 2; 3]; [4; 5; 6]] 2 3); [lia|lia|exact Hm].
Defined.

(** Without a column the first transposition leaves no row, and the
    second has no first row to take its size from.  Validation removes
    the empty rows, so that no such matrix reaches the step. *)
Example transpose_without_columns :
  transpose [[]; []] = Some ([] : list (list nat)) ∧
  transpose ([[]; []] : list (list nat)) ≫= transpose = None.
Proof. split; reflexivity. Qed.

(** ** The extraction loop terminates within its fuel *)

Section Fuel.

Import Chars Double.

Lemma skipws_length s : String.length (skipws s) ≤ String.length s.
Proof.
  induction s as [|c s IH]; simpl; [done|].
  destruct (isspace c); simpl; lia.
Qed.

Lemma skip_zeros_length s : String.length (skip_zeros s) ≤ String.length s.
Proof.
  induction s as [|c s IH]; simpl; [done|].
  destruct c as [[] [] [] [] [] [] [] []]; simpl; lia.
Qed.

(** What stage 2 accumulates is taken from the stream: a non-empty field
    leaves a shorter stream. *)
Lemma extract_digits_length fm fd fs ae s x r :
  extract_digits fm fd fs ae s = (x, r) →
  String.length r ≤ String.length s ∧
  (x ≠ EmptyString → String.length r < String.length s).
Proof.
  revert fm fd fs ae x r. induction s as [|c s IH]; intros fm fd fs ae x r.
  - simpl. intros [= <- <-]. done.
  - cbn [extract_digits].
    repeat match goal with
    | |- context [if ?b then _ else _] => destruct b
    end;
    try (destruct (extract_digits _ _ _ _ s) as [x' r'] eqn:E;
         intros [= <- <-]; apply IH in E as [E _]; simpl; split; [lia|intros _; lia]).
    intros [= <- <-]. done.
Qed.

Lemma extract_mantissa_length s x r :
  extract_mantissa s = (x, r) →
  String.length r ≤ String.length s ∧
  (x ≠ EmptyString → String.length r < String.length s).
Proof.
  unfold extract_mantissa.
  assert (∀ s' x0 r0,
            extract_digits true false false false (skip_zeros s') = (x0, r0) →
            String.length r0 ≤ String.length s') as Hz.
  { intros s' x0 r0 [E _]%extract_digits_length.
    pose proof (skip_zeros_length s'). lia. }
  destruct s as [|c s]; [apply extract_digits_length|].
  destruct c as [[] [] [] [] [] [] [] []]; try apply extract_digits_length.
  destruct (extract_digits true false false false (skip_zeros s)) as [x' r'] eqn:E.
  intros [= <- <-]. apply Hz in E. simpl. split; [lia|intros _; lia].
Qed.

Lemma extract_float_length s x r :
  extract_float s = (x, r) →
  String.length r ≤ String.length s ∧
  (x ≠ EmptyString → String.length r < String.length s).
Proof.
  unfold extract_float. destruct s as [|c s]; [by intros [= <- <-]|].
  destruct (is_plus c || is_minus c).
  - destruct (extract_mantissa s) as [x' r'] eqn:E. intros [= <- <-].
    apply extract_mantissa_length in E as [E _]. simpl. split; [lia|intros _; lia].
  - apply extract_mantissa_length.
Qed.

Lemma convert_to_v_nonempty x v : convert_to_v x = Some v → x ≠ EmptyString.
Proof. by intros H ->. Qed.

(** A successful extraction consumes at least one character. *)
Lemma extract_progress ins v ins' :
  extract ins = (Some v, ins') →
  String.length (unread ins') < String.length (unread ins).
Proof.
  unfold extract. destruct (eofbit ins || failbit ins); [discriminate|].
  unfold get_double. pose proof (skipws_length (unread ins)) as Hws.
  destruct (skipws (unread ins)) as [|c s]; [discriminate|].
  destruct (extract_float (String c s)) as [x r] eqn:Ef.
  intros [= Hv <-]. apply convert_to_v_nonempty in Hv.
  apply extract_float_length in Ef as [_ Ef]. specialize (Ef Hv).
  simpl in *. lia.
Qed.

(** More fuel than the stream has characters changes nothing. *)
Lemma copy_doubles_fuel fuel ins :
  String.length (unread ins) < fuel →
  copy_doubles (S fuel) ins = copy_doubles fuel ins.
Proof.
  revert ins. induction fuel as [|fuel IH]; intros ins Hlen; [lia|].
  cbn [copy_doubles]. destruct (extract ins) as [[v|] ins'] eqn:E; [|done].
  apply extract_progress in E.
  change (match extract ins' with
          | (Some x, ins'') =>
              let '(xs, ins''') := copy_doubles fuel ins'' in (x :: xs, ins''')
          | (None, ins'') => ([], ins'')
          end) with (copy_doubles (S fuel) ins').
  rewrite IH by lia. done.
Qed.

(** The fuel of [extract_values] is enough: any larger fuel reads the
    same row and leaves the same stream. *)
Lemma parse_line_fuel line fuel :
  String.length line < fuel →
  copy_doubles fuel (istringstream_of line) = parse_line line.
Proof.
  unfold parse_line. intros Hlen.
  induction fuel as [|fuel IH]; [lia|].
  destruct (decide (fuel = String.length line)) as [->|Hne]; [done|].
  rewrite copy_doubles_fuel by (simpl; lia). apply IH. lia.
Qed.

End Fuel.

(** ** Validation *)

Section Validation.

Context {A : Type}.
Implicit Types (m : list (list A)).

Lemma remove_empty_rows_nonempty m :
  Forall (fun r => 0 < length r) (remove_empty_rows m).
Proof.
  apply Forall_forall. intros r Hr%list_elem_of_filter. lia.
Qed.

Lemma remove_empty_rows_sublist m : sublist (remove_empty_rows m) m.
Proof. apply sublist_filter. Qed.

Lemma check_rows_Ok n k m u :
  check_rows n k m = Ok u → Forall (fun r => length r = n) m.
Proof.
  revert k. induction m as [|r m IH]; intros k; simpl; [constructor|].
  destruct (length r =? n) eqn:E; simpl; [|discriminate].
  apply Nat.eqb_eq in E. intros H. constructor; eauto.
Qed.

Lemma check_rows_rectangular n k m :
  Forall (fun r => length r = n) m → check_rows n k m = Ok tt.
Proof.
  intros Hm. revert k. induction Hm as [|r m Hr _ IH]; intros k; simpl; [done|].
  apply Nat.eqb_eq in Hr. rewrite Hr. simpl. apply IH.
Qed.

End Validation.

(** ** Row and line numbers *)

Lemma incr_of_nat (k : nat) :
  (N.of_nat (S k) < size_max)%N → incr (N.of_nat k) = N.of_nat (S k).
Proof.
  intros Hk. unfold incr. rewrite N.mod_small; lia.
Qed.

(** ** Parsing the lines *)

Import Chars Double Error.

Lemma blank_skipws line : blank line = true → skipws line = EmptyString.
Proof.
  induction line as [|c s IH]; simpl; [done|].
  intros [Hc Hs]%andb_true_iff. rewrite Hc. auto.
Qed.

Lemma parse_line_blank line :
  blank line = true → parse_line line = ([], IStream EmptyString true true).
Proof.
  intros Hb. unfold parse_line, istringstream_of. simpl.
  unfold extract, get_double. simpl. by rewrite (blank_skipws _ Hb).
Qed.

Lemma extract_values_cons file (k : N) l lines m :
  extract_values file k (l :: lines) m =
  if negb (eofbit (parse_line l).2) then Throw (could_not_be_parsed (incr k) file)
  else extract_values file (incr k) lines (m ++ [(parse_line l).1]).
Proof.
  cbn [extract_values].
  change (copy_doubles (S (String.length l)) (istringstream_of l)) with (parse_line l).
  by destruct (parse_line l).
Qed.

Lemma extract_values_Ok file (k : N) lines m :
  Forall parsed_to_end lines →
  extract_values file k lines m = Ok (m ++ map (fun l => (parse_line l).1) lines).
Proof.
  intros Hl. revert k m. induction Hl as [|l lines Hp _ IH]; intros k m.
  - simpl. by rewrite app_nil_r.
  - rewrite extract_values_cons. unfold parsed_to_end in Hp. rewrite Hp. simpl.
    rewrite IH. by rewrite <- app_assoc.
Qed.

Lemma extract_values_Ok_inv file (k : N) lines m m' :
  extract_values file k lines m = Ok m' →
  Forall parsed_to_end lines ∧ m' = m ++ map (fun l => (parse_line l).1) lines.
Proof.
  revert k m. induction lines as [|l lines IH]; intros k m.
  - simpl. intros [= <-]. by rewrite app_nil_r.
  - rewrite extract_values_cons.
    destruct (eofbit (parse_line l).2) eqn:Ee; simpl; [|discriminate].
    intros [Hl ->]%IH. split.
    + by constructor.
    + simpl. by rewrite <- app_assoc.
Qed.

(** The first line that is not read to its end stops the run, and the
    exception carries its number and the name of the file. *)
Lemma extract_values_Throw file (k : nat) l1 bad l2 m :
  Forall parsed_to_end l1 → ¬ parsed_to_end bad →
  (N.of_nat (k + S (length l1)) < size_max)%N →
  extract_values file (N.of_nat k) (l1 ++ bad :: l2) m
  = Throw (could_not_be_parsed (N.of_nat (k + S (length l1))) file).
Proof.
  intros Hl Hbad. revert k m.
  induction Hl as [|l l1 Hp _ IH]; intros k m Hk.
  - cbn [app length]. rewrite extract_values_cons.
    rewrite incr_of_nat by (simpl in Hk; lia).
    unfold parsed_to_end in Hbad.
    destruct (eofbit (parse_line bad).2); [done|]. simpl.
    replace (k + 1) with (S k) by lia. done.
  - cbn [app length]. rewrite extract_values_cons.
    rewrite incr_of_nat by (simpl in Hk; lia).
    unfold parsed_to_end in Hp. rewrite Hp. simpl.
    rewrite IH by (simpl in *; lia).
    do 3 f_equal. simpl. lia.
Qed.

(** ** The rectangularity check *)

Lemma check_rows_Throw {A : Type} n (k : nat) (v1 : list (list A)) r v2 :
  Forall (fun r' => length r' = n) v1 → length r ≠ n →
  (N.of_nat (k + S (length v1)) < size_max)%N →
  check_rows n (N.of_nat k) (v1 ++ r :: v2)
  = Throw (different_number_of_samples (N.of_nat (k + S (length v1)))).
Proof.
  intros Hv Hr. revert k. induction Hv as [|r' v1 Hr' _ IH]; intros k Hk.
  - cbn [app length check_rows].
    rewrite incr_of_nat by (simpl in Hk; lia).
    apply Nat.eqb_neq in Hr. rewrite Hr. simpl.
    replace (k + 1) with (S k) by lia. done.
  - cbn [app length check_rows].
    rewrite incr_of_nat by (simpl in Hk; lia).
    apply Nat.eqb_eq in Hr'. rewrite Hr'. simpl.
    rewrite IH by (simpl in *; lia).
    do 3 f_equal. lia.
Qed.

Lemma check_rows_Throw_inv {A : Type} n k (m : list (list A)) e :
  check_rows n k m = Throw e → ∃ nLine, e = different_number_of_samples nLine.
Proof.
  revert k. induction m as [|r m IH]; intros k; simpl; [discriminate|].
  destruct (length r =? n); simpl; [apply IH|].
  intros [= <-]. by eexists.
Qed.

Lemma remove_empty_rows_count {A : Type} (m : list (list A)) :
  length (remove_empty_rows m) + length (filter (fun r => length r = 0) m)
  = length m.
Proof.
  unfold remove_empty_rows. induction m as [|r m IH]; [done|].
  rewrite !filter_cons. repeat case_decide; simpl; lia.
Qed.

Lemma remove_empty_rows_blank {A : Type} (m : list (list A)) :
  Forall (fun r => r = []) m → remove_empty_rows m = [].
Proof.
  unfold remove_empty_rows. induction 1 as [|r m -> _ IH]; [done|].
  rewrite filter_cons. by case_decide.
Qed.

(** What [read_matrix] does once the lines are parsed. *)
Lemma read_matrix_parsed req lines m0 :
  extract_values (inputFileName req) 0 lines [] = Ok m0 →
  read_matrix req lines =
  match remove_empty_rows m0 with
  | [] => Throw (no_samples (inputFileName req))
  | (front :: _) as v =>
      match check_rows (length front) 0 v with
      | Throw e => Throw e
      | Ok _ => Ok (if shallTranspose req then transposed (length front) v else v)
      end
  end.
Proof. intros H. unfold read_matrix. by rewrite H. Qed.

(** C6, as the code has it: when a row of the matrix without its empty
    rows differs in length from the first one, the run stops with an
    exception that carries the 1-based number of the first such row,
    counted among the non-empty rows, and that number can be read off the
    exception. *)
Theorem ragged_matrix_reports_first_mismatching_row
    req lines m0 (front : row) v1 (r : row) v2 :
  extract_values (inputFileName req) 0 lines [] = Ok m0 →
  remove_empty_rows m0 = front :: v1 ++ r :: v2 →
  Forall (fun r' => length r' = length front) v1 →
  length r ≠ length front →
  (N.of_nat (length v1 + 2) < size_max)%N →
  read_matrix req lines
  = Throw (different_number_of_samples (N.of_nat (length v1 + 2))) ∧
  ∀ n, different_number_of_samples n
       = different_number_of_samples (N.of_nat (length v1 + 2)) →
       n = N.of_nat (length v1 + 2).
Proof.
  intros Hparse Hv Hv1 Hr Hn.
  split; [|intros n; apply different_number_of_samples_inj].
  rewrite (read_matrix_parsed _ _ _ Hparse), Hv.
  change (front :: v1 ++ r :: v2) with ((front :: v1) ++ r :: v2).
  change 0%N with (N.of_nat 0). cbv zeta.
  rewrite (check_rows_Throw (length front) 0 (front :: v1) r v2).
  - do 3 f_equal. simpl. lia.
  - by constructor.
  - done.
  - simpl. lia.
Qed.

Lemma ragged_matrix_reports_first_mismatching_row_witness :
  let req := Sample.request_of false false "out.txt" "" in
  let lines := ["1 2"; ""; "3 4"; "5"] in
  let m0 := [[Sample.num "1"; Sample.num "2"]; [];
             [Sample.num "3"; Sample.num "4"]; [Sample.num "5"]] in
  (extract_values (inputFileName req) 0 lines [] = Ok m0 ∧
   remove_empty_rows m0
   = [Sample.num "1"; Sample.num "2"]
       :: [[Sample.num "3"; Sample.num "4"]] ++ [Sample.num "5"] :: []) ∧
  read_matrix req lines = Throw (different_number_of_samples 3) ∧
  ∀ n, different_number_of_samples n = different_number_of_samples 3 → n = 3%N.
Proof.
  intros req lines m0.
  assert (extract_values (inputFileName req) 0 lines [] = Ok m0) as H1
    by (vm_compute; reflexivity).
  assert (remove_empty_rows m0
          = [Sample.num "1"; Sample.num "2"]
              :: [[Sample.num "3"; Sample.num "4"]] ++ [Sample.num "5"] :: []) as H2
    by (vm_compute; reflexivity).
  split; [by split|].
  apply (ragged_matrix_reports_first_mismatching_row req lines m0 _ _ _ _ H1 H2).
  - repeat constructor.
  - simpl. lia.
  - vm_compute. reflexivity.
Defined.

(** C6, as the spec states it, fails: the exception of a ragged matrix is
    the same for two runs that differ in the input file, in the length of
    the first row and in the length of the offending row, so it names
    neither the file nor the two column counts. *)
Lemma ragged_exception_omits_file_and_counts :
  read_matrix (Request "a.txt" false false "out.txt" "") ["1 2"; "3"]
  = Throw (different_number_of_samples 2) ∧
  read_matrix (Request "b.txt" false false "out.txt" "") ["1 2 3"; "4 5"]
  = Throw (different_number_of_samples 2).
Proof. split; vm_compute; reflexivity. Qed.

(** C8: validation keeps the rows with elements, in their order, and
    drops exactly the rows without; the run stops with the exception of
    line 132, which names the input file, if and only if no row is left,
    and otherwise goes on with the rows kept and no others: it gets past
    validation exactly when they all have the length of the first, and
    the matrix handed on is then made of them.  An input of blank lines
    only, or of no line at all, ends with that exception. *)
Theorem empty_rows_dropped_and_empty_matrix_rejected req :
  (∀ lines m0, extract_values (inputFileName req) 0 lines [] = Ok m0 →
     let v := remove_empty_rows m0 in
     (sublist v m0 ∧ Forall (fun r => 0 < length r) v ∧
      length v + length (filter (fun r => length r = 0) m0) = length m0) ∧
     (read_matrix req lines = Throw (no_samples (inputFileName req)) ↔ v = []) ∧
     (∀ m, read_matrix req lines = Ok m ↔
           ∃ front, head v = Some front ∧
                    Forall (fun r => length r = length front) v ∧
                    m = if shallTranspose req then transposed (length front) v
                        else v) ∧
     (∀ dev fs content m,
        fs !! inputFileName req = Some content →
        cu.extractByLine content = lines →
        read_matrix req lines = Ok m →
        runConversion dev req fs = write_matrix dev req m fs)) ∧
  (∀ file, no_samples file = no_samples (inputFileName req) →
     file = inputFileName req) ∧
  (∀ lines, Forall (fun l => blank l = true) lines →
     read_matrix req lines = Throw (no_samples (inputFileName req))) ∧
  (∀ dev fs content, fs !! inputFileName req = Some content →
     Forall (fun l => blank l = true) (cu.extractByLine content) →
     runConversion dev req fs = (Throw (no_samples (inputFileName req)), fs)).
Proof.
  assert (∀ lines, Forall (fun l => blank l = true) lines →
          read_matrix req lines = Throw (no_samples (inputFileName req))) as Hblank.
  { intros lines Hb.
    assert (Forall parsed_to_end lines) as Hp.
    { eapply Forall_impl; [exact Hb|]. intros l Hl. unfold parsed_to_end.
      by rewrite (parse_line_blank l Hl). }
    rewrite (read_matrix_parsed req lines _ (extract_values_Ok _ _ _ _ Hp)).
    rewrite remove_empty_rows_blank; [done|].
    simpl. apply Forall_map. eapply Forall_impl; [exact Hb|].
    intros l Hl. simpl. by rewrite (parse_line_blank l Hl). }
  split; [|split; [intros file; apply no_samples_inj|split]].
  - intros lines m0 Hparse v. split; [|split; [|split]].
    + split; [apply remove_empty_rows_sublist|].
      split; [apply remove_empty_rows_nonempty|apply remove_empty_rows_count].
    + rewrite (read_matrix_parsed _ _ _ Hparse). fold v. split.
      * destruct v as [|front v']; [done|]. cbv zeta.
        destruct (check_rows _ _ _) as [u|e] eqn:E; [discriminate|].
        apply check_rows_Throw_inv in E as [n ->]. discriminate.
      * by intros ->.
    + intros m. rewrite (read_matrix_parsed _ _ _ Hparse). fold v.
      destruct v as [|front v']; cbv zeta.
      * split; [discriminate|]. by intros (front & [=] & _).
      * split.
        -- destruct (check_rows _ _ _) as [u|e] eqn:E; [|discriminate].
           intros [= <-]. exists front. split; [done|].
           split; [by apply check_rows_Ok in E|done].
        -- intros (front' & [= <-] & Hrect & ->).
           by rewrite (check_rows_rectangular _ _ _ Hrect).
    + intros dev fs content m Hin Hlines Hread.
      by rewrite runConversion_eq, Hin, Hlines, Hread.
  - exact Hblank.
  - intros dev fs content Hin Hb. rewrite !runConversion_eq.
    by rewrite Hin, (Hblank _ Hb).
Qed.

Lemma empty_rows_dropped_and_empty_matrix_rejected_witness :
  let req := Sample.request_of false false "out.txt" "" in
  let lines := ["1 2"; ""; "3 4"; "  "] in
  let m0 := [[Sample.num "1"; Sample.num "2"]; [];
             [Sample.num "3"; Sample.num "4"]; []] in
  let v := [[Sample.num "1"; Sample.num "2"]; [Sample.num "3"; Sample.num "4"]] in
  extract_values (inputFileName req) 0 lines [] = Ok m0 ∧
  remove_empty_rows m0 = v ∧ sublist v m0 ∧
  length v + 2 = length m0 ∧
  read_matrix req lines = Ok v ∧
  read_matrix req ["  "; ""] = Throw (no_samples "in.txt").
Proof.
  intros req lines m0 v.
  assert (extract_values (inputFileName req) 0 lines [] = Ok m0) as Hparse
    by (vm_compute; reflexivity).
  assert (remove_empty_rows m0 = v) as Hv by (vm_compute; reflexivity).
  destruct (empty_rows_dropped_and_empty_matrix_rejected req)
    as (Hkept & _ & Hblank & _).
  destruct (Hkept lines m0 Hparse) as ((Hsub & _ & Hcount) & _ & Hok & _).
  rewrite Hv in Hsub, Hcount, Hok.
  split; [exact Hparse|]. split; [exact Hv|]. split; [exact Hsub|].
  split; [exact Hcount|]. split.
  - apply Hok. exists [Sample.num "1"; Sample.num "2"].
    split; [reflexivity|]. split; [repeat constructor|reflexivity].
  - apply Hblank. repeat constructor.
Defined.

(** A file without content and a file of blank lines, run through. *)
Example blank_files_rejected :
  runConversion Sample.plenty (Sample.request_of false false "out.txt" "")
    {[ "in.txt" := EmptyString ]}
  = (Throw (no_samples "in.txt"), {[ "in.txt" := EmptyString ]}) ∧
  (runConversion Sample.plenty (Sample.request_of true true "out_#.txt" "#")
     {[ "in.txt" := Sample.nl +:+ "  " +:+ Sample.nl ]}).1
  = Throw (no_samples "in.txt").
Proof. split; vm_compute; reflexivity. Qed.

(** ** Rectangularity from validation to the output *)

(** A run that gets past validation has a matrix with a first row, no
    empty row, and all rows as long as the first. *)
Lemma read_matrix_Ok_inv req lines m :
  read_matrix req lines = Ok m →
  ∃ m0 front v,
    extract_values (inputFileName req) 0 lines [] = Ok m0 ∧
    remove_empty_rows m0 = front :: v ∧
    0 < length front ∧
    Forall (fun r => length r = length front) (front :: v) ∧
    m = if shallTranspose req then transposed (length front) (front :: v)
        else front :: v.
Proof.
  unfold read_matrix.
  destruct (extract_values _ _ _ _) as [m0|e] eqn:Hparse; [|discriminate].
  pose proof (remove_empty_rows_nonempty m0) as Hne.
  destruct (remove_empty_rows m0) as [|front v] eqn:Hv; [discriminate|].
  destruct (check_rows _ _ _) as [u|e] eqn:Hc; [|discriminate].
  intros [= <-]. exists m0, front, v.
  apply check_rows_Ok in Hc. apply Forall_cons in Hne as [Hfront _].
  done.
Qed.

(** With the transposition asked for, the matrix of a run is the
    transposition step applied to the matrix of the run without it. *)
Lemma read_matrix_transpose req lines m :
  shallTranspose req = true →
  read_matrix req lines = Ok m →
  ∃ v, read_matrix (Request (inputFileName req) false (shallCreateFileForEachRow req)
                            (outputFileNames req) (replaceString req)) lines = Ok v ∧
       transpose v = Some m.
Proof.
  intros Ht Hread.
  apply read_matrix_Ok_inv in Hread
    as (m0 & front & v & Hparse & Hv & _ & Hrect & ->).
  rewrite Ht. exists (front :: v). split; [|done].
  rewrite (read_matrix_parsed _ lines m0) by exact Hparse.
  rewrite Hv. cbv zeta. by rewrite (check_rows_rectangular _ _ _ Hrect).
Qed.

Lemma parsed_to_end_blank line : blank line = true → parsed_to_end line.
Proof. intros Hb. unfold parsed_to_end. by rewrite (parse_line_blank _ Hb). Qed.

Lemma read_matrix_Ok_intro req lines (front : row) (v : matrix) :
  Forall parsed_to_end lines →
  remove_empty_rows (map (fun l => (parse_line l).1) lines) = front :: v →
  Forall (fun r => length r = length front) v →
  read_matrix req lines
  = Ok (if shallTranspose req then transposed (length front) (front :: v)
        else front :: v).
Proof.
  intros Hlines Hv Hrect.
  rewrite (read_matrix_parsed req lines _ (extract_values_Ok _ _ _ _ Hlines)).
  rewrite app_nil_l, Hv. cbv zeta.
  rewrite check_rows_rectangular; [done|]. by constructor.
Qed.

Lemma read_matrix_Ok_elim req lines (m : matrix) :
  read_matrix req lines = Ok m →
  Forall parsed_to_end lines ∧
  ∃ (front : row) (v : matrix),
    remove_empty_rows (map (fun l => (parse_line l).1) lines) = front :: v ∧
    Forall (fun r => length r = length front) v ∧
    m = if shallTranspose req then transposed (length front) (front :: v)
        else front :: v.
Proof.
  intros (m0 & front & v & Hparse & Hv & _ & Hrect & ->)%read_matrix_Ok_inv.
  apply extract_values_Ok_inv in Hparse as [Hlines ->].
  rewrite app_nil_l in Hv.
  split; [done|]. exists front, v. split; [done|].
  apply Forall_cons in Hrect as [_ Hrect]. done.
Qed.

(** C2: for every [R]x[C] matrix with at least one row, as validation
    leaves it, the transposition step yields a [C]x[R] matrix whose
    element [i] of row [j] is element [j] of row [i] of the input; and a
    run whose rows with values are that matrix goes on with the
    transposed matrix when the transposition is asked for, and with the
    matrix itself when it is not. *)
Theorem transpose_dimensions_and_entries (v : matrix) (R C : nat) :
  0 < R → rectangular R C v →
  ∃ t, transpose v = Some t ∧ rectangular C R t ∧
       (∀ i j, i < R → j < C →
          is_Some (entry v i j) ∧ entry t j i = entry v i j) ∧
       ∀ dev req fs content,
         fs !! inputFileName req = Some content →
         Forall parsed_to_end (cu.extractByLine content) →
         remove_empty_rows
           (map (fun l => (parse_line l).1) (cu.extractByLine content)) = v →
         read_matrix req (cu.extractByLine content)
         = Ok (if shallTranspose req then t else v) ∧
         runConversion dev req fs
         = write_matrix dev req (if shallTranspose req then t else v) fs.
Proof.
  intros HR Hm. exists (transposed C v).
  split; [by apply (transpose_transposed R)|].
  split; [by apply transposed_rectangular|]. split.
  - intros i j Hi Hj. split.
    + by apply (rectangular_entry R C).
    + by apply (transposed_entry R C).
  - intros dev req fs content Hin Hlines Hv.
    destruct Hm as [Hlen Hrows].
    destruct v as [|front v']; [simpl in Hlen; lia|].
    apply Forall_cons in Hrows as [Hfront Hrows].
    assert (read_matrix req (cu.extractByLine content)
            = Ok (if shallTranspose req then transposed C (front :: v')
                  else front :: v')) as Hread.
    { rewrite (read_matrix_Ok_intro req _ front v' Hlines Hv).
      - by rewrite Hfront.
      - eapply Forall_impl; [exact Hrows|]. intros r Hr. simpl. congruence. }
    split; [exact Hread|].
    by rewrite runConversion_eq, Hin, Hread.
Qed.

Lemma transpose_dimensions_and_entries_witness :
  let v := [[Sample.num "1"; Sample.num "2"; Sample.num "3"];
            [Sample.num "4"; Sample.num "5"; Sample.num "6"]] in
  let t := [[Sample.num "1"; Sample.num "4"]; [Sample.num "2"; Sample.num "5"];
            [Sample.num "3"; Sample.num "6"]] in
  let req := Sample.request_of true false "out.txt" "" in
  let content := "1 2 3" +:+ Sample.nl +:+ Sample.nl +:+ "4 5 6" +:+ Sample.nl in
  let fs : files := {[ "in.txt" := content ]} in
  (0 < 2 ∧ rectangular 2 3 v ∧
   fs !! inputFileName req = Some content ∧
   Forall parsed_to_end (cu.extractByLine content) ∧
   remove_empty_rows
     (map (fun l => (parse_line l).1) (cu.extractByLine content)) = v) ∧
  transpose v = Some t ∧ rectangular 3 2 t ∧
  (∀ i j, i < 2 → j < 3 → is_Some (entry v i j) ∧ entry t j i = entry v i j) ∧
  read_matrix req (cu.extractByLine content) = Ok t ∧
  runConversion Sample.plenty req fs = write_matrix Sample.plenty req t fs.
Proof.
  intros v t req content fs.
  assert (rectangular 2 3 v) as Hm.
  { split; [reflexivity|]. repeat constructor. }
  assert (fs !! inputFileName req = Some content) as Hin by reflexivity.
  assert (Forall parsed_to_end (cu.extractByLine content)) as Hlines.
  { change (cu.extractByLine content) with ["1 2 3"; ""; "4 5 6"].
    repeat constructor; vm_compute; reflexivity. }
  assert (remove_empty_rows
            (map (fun l => (parse_line l).1) (cu.extractByLine content)) = v) as Hv
    by (vm_compute; reflexivity).
  split; [split; [lia|split; [exact Hm|split; [exact Hin|split; [exact Hlines|exact Hv]]]]|].
  destruct (transpose_dimensions_and_entries v 2 3 ltac:(lia) Hm)
    as (t' & Ht & Hrect & Hentries & Hrun).
  assert (t' = t) as -> by (injection Ht as <-; reflexivity).
  split; [exact Ht|]. split; [exact Hrect|]. split; [exact Hentries|].
  exact (Hrun Sample.plenty req fs content Hin Hlines Hv).
Defined.

(** C10: when the run reaches the output, the matrix that was validated
    has every row as long as its first row; the transposition, when it is
    asked for, yields rows that are all as long as the validated matrix
    has rows; and so the matrix handed to the writer, in both output
    modes, has rows of one length. *)
Theorem rows_written_have_equal_length dev req fs content m :
  fs !! inputFileName req = Some content →
  read_matrix req (cu.extractByLine content) = Ok m →
  runConversion dev req fs = write_matrix dev req m fs ∧
  ∃ (v : matrix) (front : row),
    head v = Some front ∧ 0 < length front ∧
    Forall (fun r => length r = length front) v ∧
    m = (if shallTranspose req then transposed (length front) v else v) ∧
    (shallTranspose req = true →
       length m = length front ∧ Forall (fun r => length r = length v) m) ∧
    ∃ n, 0 < n ∧ Forall (fun r => length r = n) m.
Proof.
  intros Hin Hread. split.
  { rewrite !runConversion_eq. by rewrite Hin, Hread. }
  apply read_matrix_Ok_inv in Hread
    as (m0 & front & v & _ & _ & Hfront & Hrect & ->).
  exists (front :: v), front. split; [done|]. split; [done|].
  split; [done|]. split; [done|].
  assert (rectangular (length (front :: v)) (length front) (front :: v)) as Hr
    by done.
  destruct (transposed_rectangular _ _ _ Hr) as [Hlen Hrows].
  split.
  - intros ->. done.
  - destruct (shallTranspose req).
    + exists (length (front :: v)). split; [simpl; lia|done].
    + exists (length front). done.
Qed.

Lemma rows_written_have_equal_length_witness :
  let req := Sample.request_of true false "out.txt" "" in
  let content := "1 2 3" +:+ Sample.nl +:+ "4 5 6" +:+ Sample.nl in
  let fs : files := {[ "in.txt" := content ]} in
  let m := [[Sample.num "1"; Sample.num "4"]; [Sample.num "2"; Sample.num "5"];
            [Sample.num "3"; Sample.num "6"]] in
  (fs !! inputFileName req = Some content ∧
   read_matrix req (cu.extractByLine content) = Ok m) ∧
  runConversion Sample.plenty req fs = write_matrix Sample.plenty req m fs ∧
  ∃ (v : matrix) (front : row),
    head v = Some front ∧ 0 < length front ∧
    Forall (fun r => length r = length front) v ∧
    m = (if shallTranspose req then transposed (length front) v else v) ∧
    (shallTranspose req = true →
       length m = length front ∧ Forall (fun r => length r = length v) m) ∧
    ∃ n, 0 < n ∧ Forall (fun r => length r = n) m.
Proof.
  intros req content fs m.
  assert (fs !! inputFileName req = Some content) as H1 by reflexivity.
  assert (read_matrix req (cu.extractByLine content) = Ok m) as H2
    by (vm_compute; reflexivity).
  split; [by split|].
  exact (rows_written_have_equal_length Sample.plenty req fs content m H1 H2).
Defined.

(** ** The output pattern *)

Lemma length_nonempty (s : string) : s ≠ EmptyString → 0 < String.length s.
Proof. destruct s; [done|simpl; lia]. Qed.

(** With a token that occurs in the pattern, per-row output goes on to
    the rows, under the names made from the two parts of the pattern. *)
Lemma write_matrix_each_row dev req m fs p s :
  shallCreateFileForEachRow req = true →
  replaceString req ≠ EmptyString →
  outputFileNames req = p +:+ replaceString req +:+ s →
  let it := cu.findBoyerMoore (replaceString req) (outputFileNames req) in
  write_matrix dev req m fs =
  write_each_row dev
    (outputFileNamesFirstPart it (outputFileNames req))
    (outputFileNamesLastPart it (replaceString req) (outputFileNames req))
    0 m fs.
Proof.
  intros Hsplit Htoken Hocc it. unfold write_matrix. rewrite Hsplit.
  pose proof (length_nonempty _ Htoken) as Hlen.
  apply String.eqb_neq in Htoken as ->.
  destruct (findBoyerMoore_decomposition _ _ _ _ Hocc) as (_ & _ & Hle).
  fold it in Hle |- *.
  assert (it ≠ String.length (outputFileNames req)) as Hne.
  { rewrite Hocc. rewrite !length_append. lia. }
  apply Nat.eqb_neq in Hne as ->. done.
Qed.

(** The examples of the spec, and a token with a repeated character among
    several occurrences. *)
Example planner_examples :
  outputFileName
    (outputFileNamesFirstPart (cu.findBoyerMoore "#" "out_#.txt") "out_#.txt")
    (outputFileNamesLastPart (cu.findBoyerMoore "#" "out_#.txt") "#" "out_#.txt")
    3 = "out_3.txt" ∧
  outputFileNamesFirstPart (cu.findBoyerMoore "aab" "aaab_aab") "aaab_aab" = "a" ∧
  outputFileNamesLastPart (cu.findBoyerMoore "aab" "aaab_aab") "aab" "aaab_aab" = "_aab".
Proof. repeat split; vm_compute; reflexivity. Qed.

(** ** The exceptions of the stages *)

Lemma extract_values_Throw_inv file k lines m e :
  extract_values file k lines m = Throw e →
  ∃ nLine, e = could_not_be_parsed nLine file.
Proof.
  revert k m. induction lines as [|l lines IH]; intros k m; [discriminate|].
  rewrite extract_values_cons.
  destruct (eofbit (parse_line l).2); simpl; [apply IH|].
  intros [= <-]. by eexists.
Qed.

Lemma read_matrix_Throw_inv req lines e :
  read_matrix req lines = Throw e →
  (∃ nLine, e = could_not_be_parsed nLine (inputFileName req)) ∨
  e = no_samples (inputFileName req) ∨
  (∃ nLine, e = different_number_of_samples nLine).
Proof.
  unfold read_matrix.
  destruct (extract_values _ _ _ _) as [m0|e0] eqn:Hparse.
  - destruct (remove_empty_rows m0) as [|front v].
    + intros [= <-]. auto.
    + destruct (check_rows _ _ _) as [u|e1] eqn:Hc; [discriminate|].
      intros [= <-]. apply check_rows_Throw_inv in Hc. auto.
  - intros [= <-]. apply extract_values_Throw_inv in Hparse. auto.
Qed.

Lemma write_rows_Throw_inv name os k m fs e :
  (write_rows name os k m fs).1 = Throw e →
  ∃ nLine, e = failed_to_write nLine name.
Proof.
  revert os k fs. induction m as [|r m IH]; intros os k fs; [discriminate|].
  cbn [write_rows]. destruct (write os (row_text r) fs) as [os' fs'].
  destruct (good os'); simpl; [apply IH|].
  intros [= <-]. by eexists.
Qed.

(** Without per-row output, nothing of a run depends on the token. *)
Lemma runConversion_single_file dev req fs token :
  shallCreateFileForEachRow req = false →
  runConversion dev req fs =
  runConversion dev
    (Request (inputFileName req) (shallTranspose req) false (outputFileNames req) token)
    fs.
Proof.
  intros Hsplit. destruct req as [i t sp o tok]. simpl in *. subst sp.
  reflexivity.
Qed.

(** C7: a run that reaches the output with per-row output asked for
    stops with the exception of line 161 when the token is empty, and with
    that of line 169 when the non-empty token does not occur in the
    pattern; in both cases no file is touched.  Without per-row output
    neither exception is thrown and the token plays no role at all. *)
Theorem planning_exceptions dev req fs :
  (∀ content m,
     fs !! inputFileName req = Some content →
     read_matrix req (cu.extractByLine content) = Ok m →
     shallCreateFileForEachRow req = true →
     (replaceString req = EmptyString →
        runConversion dev req fs = (Throw nothing_to_replace, fs)) ∧
     (replaceString req ≠ EmptyString →
      (∀ p s, outputFileNames req ≠ p +:+ replaceString req +:+ s) →
        runConversion dev req fs = (Throw replacement_not_found, fs))) ∧
  (shallCreateFileForEachRow req = false →
     (runConversion dev req fs).1 ≠ Throw nothing_to_replace ∧
     (runConversion dev req fs).1 ≠ Throw replacement_not_found ∧
     ∀ token,
       runConversion dev req fs =
       runConversion dev
         (Request (inputFileName req) (shallTranspose req) false
                  (outputFileNames req) token) fs).
Proof.
  split.
  - intros content m Hin Hread Hsplit.
    rewrite !runConversion_eq. unfold write_matrix. rewrite Hin, Hread, Hsplit. split.
    + by intros ->.
    + intros Htoken Hno. apply String.eqb_neq in Htoken as ->.
      rewrite (findBoyerMoore_not_found _ _ Hno), Nat.eqb_refl. done.
  - intros Hsplit.
    assert (∀ e, (runConversion dev req fs).1 = Throw e →
                 e ≠ nothing_to_replace ∧ e ≠ replacement_not_found) as Hthrow.
    { intros e. rewrite !runConversion_eq.
      destruct (fs !! inputFileName req) as [content|].
      - destruct (read_matrix _ _) as [m|e0] eqn:Hread.
        + unfold write_matrix. rewrite Hsplit.
          destruct (open dev _ fs) as [os fs1].
          intros [n ->]%write_rows_Throw_inv. by split.
        + simpl. intros [= <-].
          apply read_matrix_Throw_inv in Hread as [[n ->]|[->|[n ->]]]; by split.
      - simpl. intros [= <-]. by split. }
    split; [|split].
    + intros H. by destruct (Hthrow _ H).
    + intros H. by destruct (Hthrow _ H).
    + intros token. by apply runConversion_single_file.
Qed.

Example planning_exceptions_examples :
  let fs : files := {[ "in.txt" := "1 2" ]} in
  runConversion Sample.plenty (Sample.request_of false true "row_#.dat" "") fs
  = (Throw nothing_to_replace, fs) ∧
  runConversion Sample.plenty (Sample.request_of false true "row_#.dat" "%") fs
  = (Throw replacement_not_found, fs) ∧
  runConversion Sample.plenty (Sample.request_of false false "row_#.dat" "") fs
  = (Ok tt, <[ "row_#.dat" := "1 2 " +:+ Sample.nl ]> fs).
Proof. repeat split; vm_compute; reflexivity. Qed.

(** ** The writer *)

Lemma outputFileName_inj firstPart lastPart (a b : N) :
  outputFileName firstPart lastPart a = outputFileName firstPart lastPart b →
  a = b.
Proof.
  unfold outputFileName. intros H%String.app_inj.
  by apply append_inv_r, to_string_inj in H.
Qed.

Lemma write_file_fits dev name text fs :
  fits dev name text = true →
  ∃ os, write_file dev name text fs = (os, <[name := text]> fs) ∧ good os = true.
Proof.
  unfold fits, write_file, open. destruct (dev name) as [n|]; [|discriminate].
  intros Hfit. unfold write. simpl. rewrite Hfit.
  exists (OStream name true (n - String.length text)).
  split; [|reflexivity]. by rewrite alter_insert_eq.
Qed.

Lemma write_file_fails dev name text fs :
  fits dev name text = false →
  ∃ os fs', write_file dev name text fs = (os, fs') ∧ good os = false ∧
            ∀ path, path ≠ name → fs' !! path = fs !! path.
Proof.
  unfold fits, write_file, open. destruct (dev name) as [n|].
  - intros Hfit. unfold write. simpl. rewrite Hfit.
    eexists (OStream name false 0), _. split; [reflexivity|]. split; [reflexivity|].
    intros path Hne. by rewrite lookup_alter_ne, lookup_insert_ne.
  - intros _. unfold write. simpl.
    by exists (OStream name false 0), fs.
Qed.

Lemma write_each_row_cons dev firstPart lastPart k r m fs :
  write_each_row dev firstPart lastPart k (r :: m) fs =
  let name := outputFileName firstPart lastPart (incr k) in
  let '(outputFile, fs') := write_file dev name (row_text r) fs in
  if negb (good outputFile) then (Throw (failed_to_write (incr k) name), fs')
  else write_each_row dev firstPart lastPart (incr k) m fs'.
Proof.
  cbn [write_each_row]. unfold write_file.
  by destruct (open dev _ fs) as [os fs1].
Qed.

Section EachRow.

Variables (dev : device) (firstPart lastPart : string).

Local Abbreviation file_of_row := (file_of_row firstPart lastPart).

Lemma file_of_row_inj i j : file_of_row i = file_of_row j → i = j.
Proof. unfold file_of_row. intros H%outputFileName_inj. lia. Qed.

(** All rows fit: every row ends up in its file, and nothing else
    changes. *)
Lemma write_each_row_Ok (m : matrix) (k : nat) fs :
  (N.of_nat (k + length m) < size_max)%N →
  (∀ i r, m !! i = Some r → fits dev (file_of_row (k + i)) (row_text r) = true) →
  ∃ fs', write_each_row dev firstPart lastPart (N.of_nat k) m fs = (Ok tt, fs') ∧
         (∀ i r, m !! i = Some r → fs' !! file_of_row (k + i) = Some (row_text r)) ∧
         (∀ path, (∀ i, i < length m → path ≠ file_of_row (k + i)) →
                  fs' !! path = fs !! path).
Proof.
  revert k fs. induction m as [|r m IH]; intros k fs Hk Hfit.
  - exists fs. split; [done|]. split; [done|done].
  - rewrite write_each_row_cons, incr_of_nat by (simpl in Hk; lia).
    cbv zeta. fold (file_of_row k).
    destruct (write_file_fits dev (file_of_row k) (row_text r) fs) as (os & -> & ->).
    { specialize (Hfit 0 r eq_refl). by rewrite Nat.add_0_r in Hfit. }
    simpl negb. cbv iota.
    destruct (IH (S k) (<[file_of_row k := row_text r]> fs)) as (fs' & -> & Hrows & Hrest).
    { simpl in Hk. lia. }
    { intros i r' Hr'. replace (S k + i) with (k + S i) by lia. by apply Hfit. }
    exists fs'. split; [done|]. split.
    + intros [|i] r' Hr'.
      * injection Hr' as ->. rewrite Nat.add_0_r, Hrest.
        -- apply lookup_insert_eq.
        -- intros i _ H%file_of_row_inj. lia.
      * replace (k + S i) with (S k + i) by lia. by apply Hrows.
    + intros path Hpath. rewrite Hrest.
      * apply lookup_insert_ne. specialize (Hpath 0). rewrite Nat.add_0_r in Hpath.
        intros <-. apply Hpath; [simpl; lia|done].
      * intros i Hi. replace (S k + i) with (k + S i) by lia.
        apply Hpath. simpl. lia.
Qed.

(** Row [n] is the first that does not fit: the run stops there with the
    exception for its file; the rows before it are in their files and no
    file of a later row is touched. *)
Lemma write_each_row_Throw (m : matrix) (k n : nat) r fs :
  (N.of_nat (k + length m) < size_max)%N →
  m !! n = Some r →
  (∀ i r', i < n → m !! i = Some r' →
           fits dev (file_of_row (k + i)) (row_text r') = true) →
  fits dev (file_of_row (k + n)) (row_text r) = false →
  ∃ fs', write_each_row dev firstPart lastPart (N.of_nat k) m fs
         = (Throw (failed_to_write (N.of_nat (S (k + n))) (file_of_row (k + n))), fs') ∧
         (∀ i r', i < n → m !! i = Some r' →
                  fs' !! file_of_row (k + i) = Some (row_text r')) ∧
         (∀ path, (∀ i, i ≤ n → path ≠ file_of_row (k + i)) →
                  fs' !! path = fs !! path).
Proof.
  revert k n fs. induction m as [|r0 m IH]; intros k n fs Hk Hn Hfit Hfail;
    [done|].
  rewrite write_each_row_cons, incr_of_nat by (simpl in Hk; lia).
  cbv zeta. fold (file_of_row k).
  destruct n as [|n].
  - injection Hn as ->. rewrite Nat.add_0_r in *.
    destruct (write_file_fails dev (file_of_row k) (row_text r) fs Hfail)
      as (os & fs' & -> & -> & Hrest).
    simpl negb. cbv iota. exists fs'. split; [done|]. split.
    + intros i r' Hi. lia.
    + intros path Hpath. apply Hrest. specialize (Hpath 0).
      rewrite Nat.add_0_r in Hpath. apply Hpath. lia.
  - destruct (write_file_fits dev (file_of_row k) (row_text r0) fs) as (os & -> & ->).
    { specialize (Hfit 0 r0). rewrite Nat.add_0_r in Hfit. apply Hfit; [lia|done]. }
    simpl negb. cbv iota.
    destruct (IH (S k) n (<[file_of_row k := row_text r0]> fs)) as (fs' & -> & Hrows & Hrest).
    { simpl in Hk. lia. }
    { exact Hn. }
    { intros i r' Hi Hr'. replace (S k + i) with (k + S i) by lia.
      apply Hfit; [lia|done]. }
    { by replace (S k + n) with (k + S n) by lia. }
    exists fs'. split.
    { by replace (S k + n) with (k + S n) by lia. }
    split.
    + intros [|i] r' Hi Hr'.
      * injection Hr' as ->. rewrite Nat.add_0_r, Hrest.
        -- apply lookup_insert_eq.
        -- intros i _ H%file_of_row_inj. lia.
      * replace (k + S i) with (S k + i) by lia. apply Hrows; [lia|done].
    + intros path Hpath. rewrite Hrest.
      * apply lookup_insert_ne. specialize (Hpath 0). rewrite Nat.add_0_r in Hpath.
        intros <-. apply Hpath; [lia|done].
      * intros i Hi. replace (S k + i) with (k + S i) by lia.
        apply Hpath. lia.
Qed.

End EachRow.

(** C3: for a non-empty token that occurs in the pattern, the planner
    splits the pattern at the leftmost occurrence: the pattern is the
    first part, the token and the last part, and no occurrence starts
    before the first part ends, so that further occurrences stay in the
    last part.  The run then writes row [i], counted from 1, to the file
    named first part, [i] in decimal, last part: when the rows fit,
    exactly these files hold the lines of their rows afterwards. *)
Theorem planner_splits_at_leftmost_token req :
  shallCreateFileForEachRow req = true →
  replaceString req ≠ EmptyString →
  (∃ p s, outputFileNames req = p +:+ replaceString req +:+ s) →
  let it := cu.findBoyerMoore (replaceString req) (outputFileNames req) in
  let firstPart := outputFileNamesFirstPart it (outputFileNames req) in
  let lastPart := outputFileNamesLastPart it (replaceString req) (outputFileNames req) in
  outputFileNames req = firstPart +:+ replaceString req +:+ lastPart ∧
  (∀ p s, outputFileNames req = p +:+ replaceString req +:+ s →
          String.length firstPart ≤ String.length p) ∧
  ∀ dev (m : matrix) fs,
    (N.of_nat (length m) < size_max)%N →
    (∀ i r, m !! i = Some r →
       fits dev (firstPart +:+ to_string (N.of_nat (S i)) +:+ lastPart)
            (line_of_values r) = true) →
    ∃ fs',
      write_matrix dev req m fs = (Ok tt, fs') ∧
      (∀ i r, m !! i = Some r →
         fs' !! (firstPart +:+ to_string (N.of_nat (S i)) +:+ lastPart)
         = Some (line_of_values r)) ∧
      (∀ path,
         (∀ i, i < length m →
               path ≠ firstPart +:+ to_string (N.of_nat (S i)) +:+ lastPart) →
         fs' !! path = fs !! path).
Proof.
  intros Hsplit Htoken (p & s & Hocc) it firstPart lastPart.
  destruct (findBoyerMoore_decomposition _ _ _ _ Hocc) as (Hdec & Hlen & _).
  split; [exact Hdec|]. split.
  - intros p' s' Hocc'.
    destruct (findBoyerMoore_decomposition _ _ _ _ Hocc') as (_ & _ & Hle).
    unfold firstPart, it. rewrite Hlen. exact Hle.
  - intros dev m fs Hsize Hfit.
    rewrite (write_matrix_each_row dev req m fs p s Hsplit Htoken Hocc).
    fold it firstPart lastPart. change 0%N with (N.of_nat 0).
    destruct (write_each_row_Ok dev firstPart lastPart m 0 fs Hsize)
      as (fs' & Hrun & Hrows & Hrest).
    { intros i r Hr. rewrite row_text_line_of_values. by apply Hfit. }
    exists fs'. split; [exact Hrun|]. split.
    + intros i r Hr. rewrite <- row_text_line_of_values. by apply Hrows.
    + exact Hrest.
Qed.

Lemma planner_splits_at_leftmost_token_witness :
  let req := Sample.request_of false true "out_#.txt" "#" in
  let m := [[Sample.num "10"]; [Sample.num "20"]; [Sample.num "30"]] in
  let fs : files := {[ "in.txt" := "10 20 30" ]} in
  (shallCreateFileForEachRow req = true ∧ replaceString req ≠ EmptyString ∧
   ∃ p s, outputFileNames req = p +:+ replaceString req +:+ s) ∧
  outputFileNames req = "out_" +:+ replaceString req +:+ ".txt" ∧
  (∀ p s, outputFileNames req = p +:+ replaceString req +:+ s →
          String.length "out_" ≤ String.length p) ∧
  ∃ fs', write_matrix Sample.plenty req m fs = (Ok tt, fs') ∧
         fs' !! "out_1.txt" = Some ("10 " +:+ Sample.nl) ∧
         fs' !! "out_2.txt" = Some ("20 " +:+ Sample.nl) ∧
         fs' !! "out_3.txt" = Some ("30 " +:+ Sample.nl) ∧
         fs' !! "out_#.txt" = None ∧
         fs' !! "in.txt" = Some "10 20 30".
Proof.
  intros req m fs.
  assert (∃ p s, outputFileNames req = p +:+ replaceString req +:+ s) as Hocc.
  { by exists "out_", ".txt". }
  assert (replaceString req ≠ EmptyString) as Htoken by done.
  split; [split; [reflexivity|split; [exact Htoken|exact Hocc]]|].
  destruct (planner_splits_at_leftmost_token req eq_refl Htoken Hocc)
    as (Hdec & Hleft & Hrun).
  split; [exact Hdec|]. split; [exact Hleft|].
  destruct (Hrun Sample.plenty m fs) as (fs' & Hw & Hrows & Hrest).
  { vm_compute. reflexivity. }
  { intros [|[|[|i]]] r Hr; try discriminate; injection Hr as <-;
      vm_compute; reflexivity. }
  exists fs'. split; [exact Hw|].
  assert (∀ i (r : row) name text,
            m !! i = Some r →
            name = outputFileNamesFirstPart
                     (cu.findBoyerMoore (replaceString req) (outputFileNames req))
                     (outputFileNames req)
                   +:+ to_string (N.of_nat (S i))
                   +:+ outputFileNamesLastPart
                         (cu.findBoyerMoore (replaceString req) (outputFileNames req))
                         (replaceString req) (outputFileNames req) →
            text = line_of_values r →
            fs' !! name = Some text) as Hfile.
  { intros i r name text Hr -> ->. by apply Hrows. }
  split; [apply (Hfile 0 [Sample.num "10"]); [reflexivity|vm_compute; reflexivity..]|].
  split; [apply (Hfile 1 [Sample.num "20"]); [reflexivity|vm_compute; reflexivity..]|].
  split; [apply (Hfile 2 [Sample.num "30"]); [reflexivity|vm_compute; reflexivity..]|].
  split.
  - rewrite Hrest; [reflexivity|].
    intros [|[|[|i]]] Hi; [vm_compute; discriminate..|simpl in Hi; lia].
  - rewrite Hrest; [reflexivity|].
    intros [|[|[|i]]] Hi; [vm_compute; discriminate..|simpl in Hi; lia].
Defined.

(** C4: in per-row mode, with a token that occurs in the pattern, the
    rows go to pairwise distinct files, row [i] (counted from 1) to the
    file named first part, [i], last part.  When every row fits its file
    the run succeeds, every such file holds exactly the line of its row
    (the values in order, each followed by one blank, and the line
    terminator) and no other file changes.  When a row does not fit, the
    run stops with the exception for that row and its file; the rows
    before it are written and no file of a later row is touched. *)
Theorem per_row_output dev req (m : matrix) fs p s :
  shallCreateFileForEachRow req = true →
  replaceString req ≠ EmptyString →
  outputFileNames req = p +:+ replaceString req +:+ s →
  (N.of_nat (length m) < size_max)%N →
  let it := cu.findBoyerMoore (replaceString req) (outputFileNames req) in
  let firstPart := outputFileNamesFirstPart it (outputFileNames req) in
  let lastPart := outputFileNamesLastPart it (replaceString req) (outputFileNames req) in
  let name := fun i : nat => firstPart +:+ to_string (N.of_nat (S i)) +:+ lastPart in
  (∀ i j, name i = name j → i = j) ∧
  ((∀ i r, m !! i = Some r → fits dev (name i) (line_of_values r) = true) →
   ∃ fs', write_matrix dev req m fs = (Ok tt, fs') ∧
          (∀ i r, m !! i = Some r → fs' !! name i = Some (line_of_values r)) ∧
          (∀ path, (∀ i, i < length m → path ≠ name i) → fs' !! path = fs !! path)) ∧
  (∀ n r, m !! n = Some r →
     (∀ i r', i < n → m !! i = Some r' →
              fits dev (name i) (line_of_values r') = true) →
     fits dev (name n) (line_of_values r) = false →
     ∃ fs', write_matrix dev req m fs
            = (Throw (failed_to_write (N.of_nat (S n)) (name n)), fs') ∧
            (∀ i r', i < n → m !! i = Some r' →
                     fs' !! name i = Some (line_of_values r')) ∧
            (∀ path, (∀ i, i ≤ n → path ≠ name i) → fs' !! path = fs !! path)).
Proof.
  intros Hsplit Htoken Hocc Hsize it firstPart lastPart name.
  split; [intros i j; apply (file_of_row_inj firstPart lastPart)|].
  rewrite (write_matrix_each_row dev req m fs p s Hsplit Htoken Hocc).
  fold it firstPart lastPart. change 0%N with (N.of_nat 0). split.
  - intros Hfit.
    destruct (write_each_row_Ok dev firstPart lastPart m 0 fs Hsize)
      as (fs' & Hrun & Hrows & Hrest).
    { intros i r Hr. rewrite row_text_line_of_values. by apply Hfit. }
    exists fs'. split; [exact Hrun|]. split; [|exact Hrest].
    intros i r Hr. rewrite <- row_text_line_of_values. by apply Hrows.
  - intros n r Hn Hfit Hfail.
    destruct (write_each_row_Throw dev firstPart lastPart m 0 n r fs Hsize Hn)
      as (fs' & Hrun & Hrows & Hrest).
    { intros i r' Hi Hr'. rewrite row_text_line_of_values. by apply Hfit. }
    { rewrite row_text_line_of_values. exact Hfail. }
    exists fs'. split; [exact Hrun|]. split; [|exact Hrest].
    intros i r' Hi Hr'. rewrite <- row_text_line_of_values. by apply Hrows.
Qed.

Lemma per_row_output_witness :
  let req := Sample.request_of false true "row_#.dat" "#" in
  let m := [[Sample.num "1"; Sample.num "2"]; [Sample.num "3"; Sample.num "4"]] in
  let fs : files := {[ "in.txt" := "1 2" +:+ Sample.nl +:+ "3 4" ]} in
  (shallCreateFileForEachRow req = true ∧ replaceString req ≠ EmptyString ∧
   outputFileNames req = "row_" +:+ replaceString req +:+ ".dat" ∧
   (N.of_nat (length m) < size_max)%N) ∧
  ∃ fs', write_matrix Sample.plenty req m fs = (Ok tt, fs') ∧
         fs' !! "row_1.dat" = Some ("1 2 " +:+ Sample.nl) ∧
         fs' !! "row_2.dat" = Some ("3 4 " +:+ Sample.nl) ∧
         fs' !! "row_3.dat" = None ∧
         fs' !! "in.txt" = fs !! "in.txt".
Proof.
  intros req m fs.
  assert (replaceString req ≠ EmptyString) as Htoken by done.
  assert (N.of_nat (length m) < size_max)%N as Hsize by (vm_compute; reflexivity).
  split; [by repeat split|].
  destruct (per_row_output Sample.plenty req m fs "row_" ".dat" eq_refl Htoken eq_refl Hsize)
    as (_ & Hok & _).
  destruct Hok as (fs' & Hw & Hrows & Hrest).
  { intros [|[|i]] r Hr; try discriminate; injection Hr as <-;
      vm_compute; reflexivity. }
  exists fs'. split; [exact Hw|].
  assert (∀ i (r : row) name text,
            m !! i = Some r →
            name = outputFileNamesFirstPart
                     (cu.findBoyerMoore (replaceString req) (outputFileNames req))
                     (outputFileNames req)
                   +:+ to_string (N.of_nat (S i))
                   +:+ outputFileNamesLastPart
                         (cu.findBoyerMoore (replaceString req) (outputFileNames req))
                         (replaceString req) (outputFileNames req) →
            text = line_of_values r →
            fs' !! name = Some text) as Hfile.
  { intros i r name text Hr -> ->. by apply Hrows. }
  split; [apply (Hfile 0 [Sample.num "1"; Sample.num "2"]);
          [reflexivity|vm_compute; reflexivity..]|].
  split; [apply (Hfile 1 [Sample.num "3"; Sample.num "4"]);
          [reflexivity|vm_compute; reflexivity..]|].
  split.
  - rewrite Hrest; [reflexivity|].
    intros [|[|i]] Hi; [vm_compute; discriminate..|simpl in Hi; lia].
  - apply Hrest.
    intros [|[|i]] Hi; [vm_compute; discriminate..|simpl in Hi; lia].
Defined.

(** The end-to-end example of per-row output: two rows, the files
    [row_1.dat] and [row_2.dat], one row each. *)
Example per_row_end_to_end :
  let fs : files := {[ "in.txt" := "1 2" +:+ Sample.nl +:+ "3 4" +:+ Sample.nl ]} in
  runConversion Sample.plenty (Sample.request_of false true "row_#.dat" "#") fs
  = (Ok tt, <[ "row_2.dat" := "3 4 " +:+ Sample.nl ]>
              (<[ "row_1.dat" := "1 2 " +:+ Sample.nl ]> fs)).
Proof. vm_compute. reflexivity. Qed.

(** A row that cannot be written ends the run: with no room for
    [row_2.dat], the first file is written, the third is not. *)
Example per_row_write_failure :
  let fs : files := {[ "in.txt" := "1" +:+ Sample.nl +:+ "2" +:+ Sample.nl +:+ "3" ]} in
  let dev : device := fun name => if String.eqb name "row_2.dat" then None else Some 64 in
  runConversion dev (Sample.request_of false true "row_#.dat" "#") fs
  = (Throw (failed_to_write 2 "row_2.dat"), <[ "row_1.dat" := "1 " +:+ Sample.nl ]> fs).
Proof. vm_compute. reflexivity. Qed.

(** ** Output to a single file *)

Lemma write_rows_Ok name (m : matrix) os k fs :
  good os = true →
  String.length (matrix_text m) ≤ room os →
  write_rows name os k m fs
  = (Ok tt, alter (fun c => c +:+ matrix_text m) (path os) fs).
Proof.
  revert os k fs. induction m as [|r m IH]; intros os k fs Hgood Hroom.
  - simpl. f_equal. symmetry. apply alter_id. intros c _. apply append_nil_r.
  - cbn [write_rows matrix_text] in *. rewrite length_append in Hroom.
    unfold write. rewrite Hgood.
    assert ((String.length (row_text r) <=? room os) = true) as ->
      by (apply Nat.leb_le; lia).
    simpl negb. cbv iota.
    rewrite IH by (simpl; lia). simpl path. f_equal.
    rewrite alter_alter_eq. apply alter_ext.
    intros c _. simpl. apply append_assoc.
Qed.

(** With room for all rows, single-file mode leaves exactly one file
    changed: the output file, created or truncated, holds the rows in
    their order. *)
Lemma write_matrix_single_file dev req (m : matrix) fs n :
  shallCreateFileForEachRow req = false →
  dev (outputFileNames req) = Some n →
  String.length (matrix_text m) ≤ n →
  write_matrix dev req m fs
  = (Ok tt, <[outputFileNames req := matrix_text m]> fs).
Proof.
  intros Hsplit Hdev Hroom. unfold write_matrix, open. rewrite Hsplit, Hdev.
  rewrite write_rows_Ok by done. simpl path. f_equal.
  by rewrite alter_insert_eq.
Qed.

(** C1, as the code has it: for an input of the lines [1 2 3] and
    [4 5 6], without transposition and in single-file mode, the run
    succeeds and changes only the output file, which then holds the two
    rows in order, every value followed by one blank and every row by the
    line terminator. *)
Theorem single_file_end_to_end dev fs input content token n :
  fs !! input = Some content →
  cu.extractByLine content = ["1 2 3"; "4 5 6"] →
  dev "out.txt" = Some n → 14 ≤ n →
  runConversion dev (Request input false false "out.txt" token) fs
  = (Ok tt, <["out.txt" := "1 2 3 " +:+ Sample.nl +:+ "4 5 6 " +:+ Sample.nl]> fs).
Proof.
  intros Hin Hlines Hdev Hroom. rewrite !runConversion_eq. simpl inputFileName.
  rewrite Hin, Hlines.
  set (m := [[Sample.num "1"; Sample.num "2"; Sample.num "3"];
             [Sample.num "4"; Sample.num "5"; Sample.num "6"]]).
  assert (read_matrix (Request input false false "out.txt" token)
            ["1 2 3"; "4 5 6"] = Ok m) as -> by (vm_compute; reflexivity).
  rewrite (write_matrix_single_file dev
             (Request input false false "out.txt" token) m fs n eq_refl Hdev).
  - reflexivity.
  - change (String.length (matrix_text m)) with 14. exact Hroom.
Qed.

Lemma single_file_end_to_end_witness :
  let content := "1 2 3" +:+ Sample.nl +:+ "4 5 6" +:+ Sample.nl in
  let fs : files := {[ "in.txt" := content ]} in
  (fs !! "in.txt" = Some content ∧
   cu.extractByLine content = ["1 2 3"; "4 5 6"] ∧
   Sample.plenty "out.txt" = Some 4096 ∧ 14 ≤ 4096) ∧
  runConversion Sample.plenty (Request "in.txt" false false "out.txt" "") fs
  = (Ok tt, <["out.txt" := "1 2 3 " +:+ Sample.nl +:+ "4 5 6 " +:+ Sample.nl]> fs).
Proof.
  intros content fs.
  assert (cu.extractByLine content = ["1 2 3"; "4 5 6"]) as Hlines
    by (vm_compute; reflexivity).
  assert (14 ≤ 4096) as Hroom by lia.
  split; [by repeat split|].
  exact (single_file_end_to_end Sample.plenty fs "in.txt" content "" 4096
           eq_refl Hlines eq_refl Hroom).
Defined.

(** C1, as the spec states it, fails: the output file of the example does
    not hold the rows without a blank before the line terminator. *)
Lemma single_file_content_differs :
  let content := "1 2 3" +:+ Sample.nl +:+ "4 5 6" +:+ Sample.nl in
  let run := runConversion Sample.plenty (Request "in.txt" false false "out.txt" "")
               {[ "in.txt" := content ]} in
  run.1 = Ok tt ∧
  run.2 !! "out.txt" = Some ("1 2 3 " +:+ Sample.nl +:+ "4 5 6 " +:+ Sample.nl) ∧
  run.2 !! "out.txt" ≠ Some ("1 2 3" +:+ Sample.nl +:+ "4 5 6" +:+ Sample.nl).
Proof.
  intros content run.
  split; [vm_compute; reflexivity|].
  split; [vm_compute; reflexivity|].
  vm_compute. discriminate.
Qed.

(** ** Lines that are not numbers throughout *)

(** A line with a token that is not a number, and a line with text behind
    its last number, are reported with their number and the file. *)
Example unparsed_lines_reported :
  read_matrix (Sample.request_of false false "out.txt" "") ["1 2 3"; "4 x 6"]
  = Throw (could_not_be_parsed 2 "in.txt") ∧
  read_matrix (Sample.request_of false false "out.txt" "") ["1 2 3"; ""; "4 5 6abc"]
  = Throw (could_not_be_parsed 3 "in.txt").
Proof. split; vm_compute; reflexivity. Qed.

(** C5 fails on the code for a token that only begins like a number and
    ends the line.  The sign [-] is no number, and neither is the text
    [5e]; the extraction that fails on them has consumed the line to its
    end, so [eofbit] is set, the check of line 119 passes, and the run
    goes on with the values read so far.  The same holds for trailing text
    such as the sign behind [3] in [1 2 3-]. *)
Theorem dangling_token_not_reported :
  let req := Sample.request_of false false "out.txt" "" in
  let fs : files := {[ "in.txt" := "1 2 -" +:+ Sample.nl +:+ "3 4 5e" +:+ Sample.nl ]} in
  Double.convert_to_v "-" = None ∧
  Double.convert_to_v "5e" = None ∧
  read_matrix req ["1 2 -"; "3 4 5e"]
  = Ok [[Sample.num "1"; Sample.num "2"]; [Sample.num "3"; Sample.num "4"]] ∧
  read_matrix req ["1 2 3-"]
  = Ok [[Sample.num "1"; Sample.num "2"; Sample.num "3"]] ∧
  runConversion Sample.plenty req fs
  = (Ok tt, <[ "out.txt" := "1 2 " +:+ Sample.nl +:+ "3 4 " +:+ Sample.nl ]> fs).
Proof. repeat split; vm_compute; reflexivity. Qed.

(** ** What a run changes *)

Lemma write_frame os text fs name :
  name ≠ path os → (write os text fs).2 !! name = fs !! name.
Proof.
  intros Hne. unfold write.
  destruct (good os); [|done].
  destruct (String.length text <=? room os); simpl; by rewrite lookup_alter_ne.
Qed.

Lemma write_path os text fs : path (write os text fs).1 = path os.
Proof.
  unfold write. destruct (good os); [|done].
  by destruct (String.length text <=? room os).
Qed.

Lemma open_frame dev file fs name :
  name ≠ file → (open dev file fs).2 !! name = fs !! name.
Proof.
  intros Hne. unfold open. destruct (dev file); simpl; [|done].
  by rewrite lookup_insert_ne.
Qed.

Lemma open_path dev file fs : path (open dev file fs).1 = file.
Proof. unfold open. by destruct (dev file). Qed.

Lemma write_rows_frame out os k (m : matrix) fs name :
  name ≠ path os → (write_rows out os k m fs).2 !! name = fs !! name.
Proof.
  intros Hne. revert os k fs Hne.
  induction m as [|r m IH]; intros os k fs Hne; [done|].
  cbn [write_rows].
  pose proof (write_frame os (row_text r) fs name Hne) as Hw.
  pose proof (write_path os (row_text r) fs) as Hp.
  destruct (write os (row_text r) fs) as [os' fs']. simpl in Hw, Hp.
  destruct (good os'); simpl; [|done].
  rewrite IH by congruence. done.
Qed.

Lemma write_each_row_frame dev firstPart lastPart k (m : matrix) fs name :
  (∀ n, name ≠ outputFileName firstPart lastPart n) →
  (write_each_row dev firstPart lastPart k m fs).2 !! name = fs !! name.
Proof.
  intros Hne. revert k fs. induction m as [|r m IH]; intros k fs; [done|].
  cbn [write_each_row].
  pose proof (open_frame dev (outputFileName firstPart lastPart (incr k)) fs name
                (Hne _)) as Ho.
  pose proof (open_path dev (outputFileName firstPart lastPart (incr k)) fs) as Hp.
  destruct (open dev _ fs) as [os fs1]. simpl in Ho, Hp.
  assert (name ≠ path os) as Hne' by (rewrite Hp; apply Hne).
  pose proof (write_frame os (row_text r) fs1 name Hne') as Hw.
  destruct (write os (row_text r) fs1) as [os' fs2]. simpl in Hw.
  destruct (good os'); simpl; [|congruence].
  rewrite IH. congruence.
Qed.

Lemma write_each_row_Throw_inv dev firstPart lastPart k (m : matrix) fs e :
  (write_each_row dev firstPart lastPart k m fs).1 = Throw e →
  ∃ nLine, e = failed_to_write nLine (outputFileName firstPart lastPart nLine).
Proof.
  revert k fs. induction m as [|r m IH]; intros k fs; [discriminate|].
  cbn [write_each_row].
  destruct (open dev _ fs) as [os fs1].
  destruct (write os (row_text r) fs1) as [os' fs2].
  destruct (good os'); simpl; [apply IH|].
  intros [= <-]. by eexists.
Qed.

(** X1: a run changes no file but its output: in single-file mode the
    file named by the output widget, in per-row mode files whose names
    are the two parts of the pattern around a row number.  This holds for
    runs that fail as well, and in particular the input file stays as it
    is unless it is named as an output. *)
Theorem run_changes_only_output_files dev req fs name :
  let it := cu.findBoyerMoore (replaceString req) (outputFileNames req) in
  (if shallCreateFileForEachRow req
   then ∀ n, name ≠ outputFileName
                      (outputFileNamesFirstPart it (outputFileNames req))
                      (outputFileNamesLastPart it (replaceString req) (outputFileNames req))
                      n
   else name ≠ outputFileNames req) →
  (runConversion dev req fs).2 !! name = fs !! name.
Proof.
  intros it Hname. rewrite !runConversion_eq.
  destruct (fs !! inputFileName req) as [content|]; [|done].
  destruct (read_matrix req (cu.extractByLine content)) as [m|e]; [|done].
  unfold write_matrix. destruct (shallCreateFileForEachRow req).
  - destruct (String.eqb (replaceString req) EmptyString); [done|].
    fold it. destruct (it =? String.length (outputFileNames req)); [done|].
    by apply write_each_row_frame.
  - pose proof (open_frame dev (outputFileNames req) fs name Hname) as Ho.
    pose proof (open_path dev (outputFileNames req) fs) as Hp.
    destruct (open dev (outputFileNames req) fs) as [os fs1]. simpl in Ho, Hp.
    rewrite write_rows_frame by congruence. done.
Qed.

Lemma run_changes_only_output_files_witness :
  let req := Sample.request_of false false "out.txt" "" in
  let fs : files := {[ "in.txt" := "1 2" +:+ Sample.nl +:+ "3 4" ]} in
  "in.txt" ≠ outputFileNames req ∧
  (runConversion Sample.plenty req fs).2 !! "in.txt" = fs !! "in.txt".
Proof.
  intros req fs.
  assert ("in.txt" ≠ outputFileNames req) as Hne by done.
  split; [exact Hne|].
  exact (run_changes_only_output_files Sample.plenty req fs "in.txt" Hne).
Defined.

(** X2: a run that fails throws one of the nine exceptions of the
    source, each at its stage.  Three come from the input stream: the file
    was not opened; it was opened and the stream is bad after the reading;
    the stream is not bad but not at its end.  Past these checks come an
    unparsed line, no row left and a row of another length; then, with
    per-row output, an empty token or a token that is not found, both only
    after the input has passed validation; and last a failed write.  But
    for a failed write, the files are left exactly as they were. *)
Theorem run_exceptions dev req inputFile fs e fs' :
  conversion dev req inputFile fs = (Throw e, fs') →
  let checked :=
    is_open inputFile = true ∧ bad inputFile = false ∧ eof inputFile = true in
  let validated :=
    checked ∧ ∃ m, read_matrix req (extracted inputFile) = Ok m in
  (e = could_not_open (inputFileName req) ∧ fs' = fs ∧
     is_open inputFile = false) ∨
  (e = could_not_be_read (inputFileName req) ∧ fs' = fs ∧
     is_open inputFile = true ∧ bad inputFile = true) ∨
  (e = end_not_reached (inputFileName req) ∧ fs' = fs ∧
     is_open inputFile = true ∧ bad inputFile = false ∧ eof inputFile = false) ∨
  ((∃ nLine, e = could_not_be_parsed nLine (inputFileName req)) ∧ fs' = fs ∧
     checked) ∨
  (e = no_samples (inputFileName req) ∧ fs' = fs ∧ checked) ∨
  ((∃ nLine, e = different_number_of_samples nLine) ∧ fs' = fs ∧ checked) ∨
  (e = nothing_to_replace ∧ fs' = fs ∧ validated ∧
     shallCreateFileForEachRow req = true ∧ replaceString req = EmptyString) ∨
  (e = replacement_not_found ∧ fs' = fs ∧ validated ∧
     shallCreateFileForEachRow req = true ∧ replaceString req ≠ EmptyString ∧
     (∀ p s, outputFileNames req ≠ p +:+ replaceString req +:+ s)) ∨
  ((∃ nLine name, e = failed_to_write nLine name) ∧ validated).
Proof.
  intros H checked validated. revert H. unfold conversion.
  destruct (is_open inputFile) eqn:Hopen; cbn [negb].
  2:{ intros [= <- <-]. left. done. }
  destruct (bad inputFile) eqn:Hbad.
  { intros [= <- <-]. right. left. done. }
  destruct (eof inputFile) eqn:Heof; cbn [negb].
  2:{ intros [= <- <-]. do 2 right. left. done. }
  assert checked as Hchecked by done.
  destruct (read_matrix req (extracted inputFile)) as [m|e0] eqn:Hread.
  2:{ intros [= <- <-]. do 3 right.
      apply read_matrix_Throw_inv in Hread as [H|[H|H]]; auto 6. }
  assert validated as Hvalidated by (split; [done|by exists m]).
  unfold write_matrix.
  destruct (shallCreateFileForEachRow req) eqn:Hsplit.
  - destruct (String.eqb (replaceString req) EmptyString) eqn:Htoken.
    { intros [= <- <-]. apply String.eqb_eq in Htoken.
      do 6 right. left. done. }
    apply String.eqb_neq in Htoken.
    destruct (_ =? _) eqn:Hit.
    { intros [= <- <-]. do 7 right. left.
      split; [done|]. split; [done|]. split; [done|]. split; [done|].
      split; [done|]. intros p s Hocc. apply Nat.eqb_eq in Hit.
      destruct (findBoyerMoore_decomposition _ _ _ _ Hocc) as (_ & _ & Hle).
      rewrite Hit, Hocc, !length_append in Hle.
      apply length_nonempty in Htoken. lia. }
    intros H. do 8 right.
    apply (f_equal fst) in H. simpl in H.
    apply write_each_row_Throw_inv in H as [n ->]. eauto.
  - destruct (open dev (outputFileNames req) fs) as [os fs1].
    intros H. do 8 right.
    apply (f_equal fst) in H. simpl in H.
    apply write_rows_Throw_inv in H as [n ->]. eauto.
Qed.

(** A directory named as the input: the stream is opened and is bad
    after the first read. *)
Lemma run_exceptions_witness :
  let req := Sample.request_of false false "out.txt" "" in
  let directory := IFStream true [] true false in
  let fs : files := {[ "out.txt" := "kept" ]} in
  conversion Sample.plenty req directory fs
  = (Throw "The file 'in.txt' could not be read.", fs) ∧
  is_open directory = true ∧ bad directory = true.
Proof.
  intros req directory fs.
  assert (conversion Sample.plenty req directory fs
          = (Throw "The file 'in.txt' could not be read.", fs)) as Hrun
    by reflexivity.
  split; [exact Hrun|].
  destruct (run_exceptions Sample.plenty req directory fs _ _ Hrun)
    as [(_ & _ & H)|[(_ & _ & H)|[(_ & _ & _ & H & _)|[(_ & _ & _ & H & _)
       |[(_ & _ & _ & H & _)|[(_ & _ & _ & H & _)|[(_ & _ & ((_ & H & _) & _) & _)
       |[(_ & _ & ((_ & H & _) & _) & _)|(_ & (_ & H & _) & _)]]]]]]]];
    try discriminate H.
  exact H.
Defined.

(** ** Which inputs are read, and which are not *)

(** X3: the first line that is not read to its end stops the run with
    its 1-based number and the name of the file, both of which can be read
    off the exception; no file is touched, and nothing behind that line
    or in the other settings matters. *)
Theorem first_unparsed_line_stops_run dev req fs content l1 bad l2 :
  fs !! inputFileName req = Some content →
  cu.extractByLine content = l1 ++ bad :: l2 →
  Forall parsed_to_end l1 → ¬ parsed_to_end bad →
  (N.of_nat (S (length l1)) < size_max)%N →
  runConversion dev req fs
  = (Throw (could_not_be_parsed (N.of_nat (S (length l1))) (inputFileName req)), fs) ∧
  ∀ nLine file,
    could_not_be_parsed nLine file
    = could_not_be_parsed (N.of_nat (S (length l1))) (inputFileName req) →
    nLine = N.of_nat (S (length l1)) ∧ file = inputFileName req.
Proof.
  intros Hin Hlines Hl1 Hbad Hsize. split; [|intros n f; apply could_not_be_parsed_inj].
  rewrite !runConversion_eq. unfold read_matrix. rewrite Hin, Hlines.
  change 0%N with (N.of_nat 0).
  rewrite (extract_values_Throw _ 0 l1 bad l2 [] Hl1 Hbad) by (simpl; lia).
  done.
Qed.

Lemma first_unparsed_line_stops_run_witness :
  let req := Sample.request_of true true "" "" in
  let content := "1 2" +:+ Sample.nl +:+ Sample.nl +:+ "3 x" +:+ Sample.nl +:+ "y" in
  let fs : files := {[ "in.txt" := content ]} in
  (cu.extractByLine content = ["1 2"; ""] ++ "3 x" :: ["y"] ∧
   Forall parsed_to_end ["1 2"; ""] ∧ ¬ parsed_to_end "3 x") ∧
  runConversion Sample.plenty req fs = (Throw (could_not_be_parsed 3 "in.txt"), fs).
Proof.
  intros req content fs.
  assert (cu.extractByLine content = ["1 2"; ""] ++ "3 x" :: ["y"]) as H1
    by (vm_compute; reflexivity).
  assert (Forall parsed_to_end ["1 2"; ""]) as H2
    by (repeat constructor; vm_compute; reflexivity).
  assert (¬ parsed_to_end "3 x") as H3 by (vm_compute; discriminate).
  assert (N.of_nat (S (length ["1 2"; ""])) < size_max)%N as H4
    by (vm_compute; reflexivity).
  split; [done|].
  exact (proj1 (first_unparsed_line_stops_run Sample.plenty req fs content
                  ["1 2"; ""] "3 x" ["y"] eq_refl H1 H2 H3 H4)).
Defined.

(** X4: a line whose first character after the white space cannot begin
    a number (it is no digit, no sign and no decimal point) gives no value
    and is not read to its end: the extraction fails at that character. *)
Theorem line_beginning_with_text_not_parsed line c s :
  Double.skipws line = String c s →
  begins_number c = false →
  parse_line line = ([], IStream (String c s) false true) ∧ ¬ parsed_to_end line.
Proof.
  intros Hws Hc.
  assert (parse_line line = ([], IStream (String c s) false true)) as Hparse.
  { unfold parse_line, istringstream_of. cbn [copy_doubles].
    unfold extract. cbn [eofbit failbit unread orb].
    unfold Double.get_double. rewrite Hws.
    assert (Double.extract_float (String c s) = (EmptyString, String c s)) as ->.
    { unfold begins_number in Hc.
      apply orb_false_iff in Hc as [Hc Hpoint].
      apply orb_false_iff in Hc as [Hc Hminus].
      apply orb_false_iff in Hc as [Hdigit Hplus].
      unfold Double.extract_float. rewrite Hplus, Hminus.
      assert (Double.extract_mantissa (String c s)
              = Double.extract_digits false false false false (String c s)) as ->.
      { unfold Double.extract_mantissa.
        destruct c as [[] [] [] [] [] [] [] []]; try reflexivity. discriminate. }
      cbn [Double.extract_digits andb orb negb].
      rewrite Hdigit, Hpoint. cbn [andb]. by rewrite andb_false_r. }
    reflexivity. }
  split; [exact Hparse|]. unfold parsed_to_end. rewrite Hparse. simpl. discriminate.
Qed.

Lemma line_beginning_with_text_not_parsed_witness :
  (Double.skipws "  x 1 2" = String "x" " 1 2" ∧ begins_number "x" = false) ∧
  parse_line "  x 1 2" = ([], IStream "x 1 2" false true) ∧
  ¬ parsed_to_end "  x 1 2".
Proof.
  split; [by split|].
  exact (line_beginning_with_text_not_parsed "  x 1 2" "x" " 1 2" eq_refl eq_refl).
Defined.

(** X5: the run reaches the output stage exactly when every line is read
    to its end, the rows with values are not none, and they all have the
    length of the first; the matrix is then these rows, transposed if
    asked for. *)
Theorem read_matrix_Ok_iff req lines (m : matrix) :
  read_matrix req lines = Ok m ↔
  Forall parsed_to_end lines ∧
  ∃ (front : row) (v : matrix),
    remove_empty_rows (map (fun l => (parse_line l).1) lines) = front :: v ∧
    Forall (fun r => length r = length front) v ∧
    m = if shallTranspose req then transposed (length front) (front :: v)
        else front :: v.
Proof.
  split; [apply read_matrix_Ok_elim|].
  intros (Hlines & front & v & Hv & Hrect & ->).
  by apply read_matrix_Ok_intro.
Qed.

Lemma remove_empty_rows_cons_nil {A : Type} (m : list (list A)) :
  remove_empty_rows ([] :: m) = remove_empty_rows m.
Proof. unfold remove_empty_rows. rewrite filter_cons. by case_decide. Qed.

Lemma remove_empty_rows_cons {A : Type} (r : list A) (m : list (list A)) :
  remove_empty_rows (r :: m)
  = if decide (length r ≠ 0) then r :: remove_empty_rows m else remove_empty_rows m.
Proof. unfold remove_empty_rows. by rewrite filter_cons. Qed.

Lemma blank_lines_no_rows lines :
  remove_empty_rows (map (fun l => (parse_line l).1)
                         (filter (fun l => blank l = false) lines))
  = remove_empty_rows (map (fun l => (parse_line l).1) lines).
Proof.
  induction lines as [|l lines IH]; [done|].
  rewrite filter_cons. destruct (blank l) eqn:Hb.
  - case_decide; [done|]. cbn [map]. rewrite (parse_line_blank l Hb).
    cbn [fst]. by rewrite remove_empty_rows_cons_nil.
  - case_decide; [|done]. cbn [map]. rewrite !remove_empty_rows_cons.
    by rewrite IH.
Qed.

Lemma blank_lines_parsed lines :
  Forall parsed_to_end (filter (fun l => blank l = false) lines) ↔
  Forall parsed_to_end lines.
Proof.
  induction lines as [|l lines IH]; [done|].
  rewrite filter_cons. destruct (blank l) eqn:Hb.
  - case_decide; [done|]. rewrite Forall_cons, IH.
    pose proof (parsed_to_end_blank l Hb). tauto.
  - case_decide; [|done]. by rewrite !Forall_cons, IH.
Qed.

(** X6: blank lines, wherever they stand, do not change the matrix of a
    run: the input with its blank lines removed passes validation exactly
    when the input does, with the same matrix. *)
Theorem blank_lines_do_not_change_matrix req lines (m : matrix) :
  read_matrix req (filter (fun l => blank l = false) lines) = Ok m ↔
  read_matrix req lines = Ok m.
Proof.
  split.
  - intros (Hlines & front & v & Hv & Hrect & ->)%read_matrix_Ok_elim.
    apply read_matrix_Ok_intro; [by apply blank_lines_parsed| |done].
    by rewrite <- blank_lines_no_rows.
  - intros (Hlines & front & v & Hv & Hrect & ->)%read_matrix_Ok_elim.
    apply read_matrix_Ok_intro; [by apply blank_lines_parsed| |done].
    by rewrite blank_lines_no_rows.
Qed.

(** ** The output of a run, for every input *)

Lemma write_rows_Ok_inv out os k (m : matrix) fs :
  (write_rows out os k m fs).1 = Ok tt →
  m = [] ∨ (good os = true ∧ String.length (matrix_text m) ≤ room os).
Proof.
  revert os k fs. induction m as [|r m IH]; intros os k fs; [by left|].
  intros H. right. revert H. destruct os as [file [] n]; [|discriminate].
  cbn [write_rows matrix_text]. unfold write. cbn [good room path].
  rewrite length_append.
  destruct (String.length (row_text r) <=? n) eqn:Hfit; [|discriminate].
  apply Nat.leb_le in Hfit. cbn [good negb].
  intros [->|[_ Hroom]]%IH; simpl in *; split; auto; lia.
Qed.

Lemma read_matrix_nonempty req lines (m : matrix) :
  read_matrix req lines = Ok m → m ≠ [].
Proof.
  intros (m0 & front & v & _ & _ & Hfront & _ & ->)%read_matrix_Ok_inv.
  destruct (shallTranspose req); [|done].
  intros H%(f_equal length). rewrite transposed_length in H. simpl in H. lia.
Qed.

(** X7: a single-file run succeeds exactly when the input file exists
    and passes validation and the output file can be opened and takes the
    lines of all rows; the files after it are then the files before with
    the output file holding these lines in the order of the rows, each
    line the values of its row in order, every value followed by one
    blank, and the line terminator.  The input is read before the output
    is opened, so this holds as well when the output file is the input
    file. *)
Theorem single_file_run dev req fs fs' :
  shallCreateFileForEachRow req = false →
  runConversion dev req fs = (Ok tt, fs') ↔
  ∃ content (m : matrix) n,
    fs !! inputFileName req = Some content ∧
    read_matrix req (cu.extractByLine content) = Ok m ∧
    dev (outputFileNames req) = Some n ∧
    String.length (text_of_rows m) ≤ n ∧
    fs' = <[outputFileNames req := text_of_rows m]> fs.
Proof.
  intros Hsplit. split.
  - rewrite !runConversion_eq.
    destruct (fs !! inputFileName req) as [content|]; [|discriminate].
    destruct (read_matrix req (cu.extractByLine content)) as [m|e] eqn:Hread;
      [|discriminate].
    pose proof (read_matrix_nonempty _ _ _ Hread) as Hm.
    unfold write_matrix, open. rewrite Hsplit.
    destruct (dev (outputFileNames req)) as [n|]; intros Hrun;
      destruct (write_rows_Ok_inv _ _ _ _ _ (f_equal fst Hrun))
        as [->|[Hgood Hroom]]; try done.
    rewrite write_rows_Ok in Hrun by done. simpl path in Hrun.
    rewrite alter_insert_eq in Hrun. injection Hrun as <-.
    simpl in Hroom. rewrite append_nil_l. rewrite matrix_text_text_of_rows in *.
    by exists content, m, n.
  - intros (content & m & n & Hin & Hread & Hdev & Hroom & ->).
    rewrite !runConversion_eq. rewrite Hin, Hread.
    rewrite <- matrix_text_text_of_rows in *.
    by apply (write_matrix_single_file dev req m fs n).
Qed.

Lemma single_file_run_witness :
  let req := Request "data.txt" true false "data.txt" "" in
  let content := "1 2 3" +:+ Sample.nl +:+ "4 5 6" +:+ Sample.nl in
  let fs : files := {[ "data.txt" := content; "other.txt" := "kept" ]} in
  let fs' : files :=
    {[ "data.txt" := "1 4 " +:+ Sample.nl +:+ "2 5 " +:+ Sample.nl
                     +:+ "3 6 " +:+ Sample.nl;
       "other.txt" := "kept" ]} in
  shallCreateFileForEachRow req = false ∧
  runConversion Sample.plenty req fs = (Ok tt, fs').
Proof.
  intros req content fs fs'. split; [reflexivity|].
  apply (single_file_run Sample.plenty req fs fs' eq_refl).
  exists content,
         [[Sample.num "1"; Sample.num "4"]; [Sample.num "2"; Sample.num "5"];
          [Sample.num "3"; Sample.num "6"]],
         4096.
  split; [reflexivity|]. split; [vm_compute; reflexivity|].
  split; [reflexivity|]. split.
  - apply Nat.leb_le. vm_compute. reflexivity.
  - vm_compute. reflexivity.
Defined.

(** X8: a successful single-file run with an output file other than the
    input file can be repeated: the second run succeeds as well and leaves
    the files as the first run left them. *)
Theorem single_file_run_repeatable dev req fs fs1 :
  shallCreateFileForEachRow req = false →
  inputFileName req ≠ outputFileNames req →
  runConversion dev req fs = (Ok tt, fs1) →
  runConversion dev req fs1 = (Ok tt, fs1).
Proof.
  intros Hsplit Hne. rewrite !runConversion_eq.
  destruct (fs !! inputFileName req) as [content|] eqn:Hin; [|discriminate].
  destruct (read_matrix req (cu.extractByLine content)) as [m|e] eqn:Hread;
    [|discriminate].
  unfold write_matrix, open. rewrite Hsplit.
  destruct (dev (outputFileNames req)) as [n|].
  - intros Hrun.
    pose proof (write_rows_Ok_inv _ _ _ _ _ (f_equal fst Hrun)) as Hfit.
    assert (String.length (matrix_text m) ≤ n) as Hroom.
    { destruct Hfit as [->|[_ Hfit]]; [simpl; lia|exact Hfit]. }
    rewrite write_rows_Ok in Hrun by done. simpl path in Hrun.
    rewrite alter_insert_eq in Hrun. injection Hrun as <-.
    rewrite lookup_insert_ne, Hin, Hread by done.
    rewrite write_rows_Ok by done. simpl path.
    by rewrite alter_insert_eq, insert_insert_eq.
  - intros Hrun.
    destruct (write_rows_Ok_inv _ _ _ _ _ (f_equal fst Hrun)) as [->|[Hgood _]];
      [|discriminate].
    injection Hrun as <-. by rewrite Hin, Hread.
Qed.

Lemma single_file_run_repeatable_witness :
  let req := Sample.request_of true false "out.txt" "" in
  let fs : files := {[ "in.txt" := "1 2" +:+ Sample.nl +:+ "3 4" ]} in
  let fs1 : files := <[ "out.txt" := "1 3 " +:+ Sample.nl +:+ "2 4 " +:+ Sample.nl ]> fs in
  (inputFileName req ≠ outputFileNames req ∧
   runConversion Sample.plenty req fs = (Ok tt, fs1)) ∧
  runConversion Sample.plenty req fs1 = (Ok tt, fs1).
Proof.
  intros req fs fs1.
  assert (inputFileName req ≠ outputFileNames req) as H1 by done.
  assert (runConversion Sample.plenty req fs = (Ok tt, fs1)) as H2
    by (vm_compute; reflexivity).
  split; [split; [exact H1|exact H2]|].
  exact (single_file_run_repeatable Sample.plenty req fs fs1 eq_refl H1 H2).
Defined.

Lemma write_rows_fails out os (k : nat) (m1 : matrix) r m2 fs :
  good os = true →
  String.length (matrix_text m1) ≤ room os →
  room os < String.length (matrix_text m1) + String.length (row_text r) →
  (N.of_nat (k + S (length m1)) < size_max)%N →
  ∃ rest,
    write_rows out os (N.of_nat k) (m1 ++ r :: m2) fs
    = (Throw (failed_to_write (N.of_nat (k + S (length m1))) out),
       alter (fun c => c +:+ (matrix_text m1 +:+ rest)) (path os) fs).
Proof.
  revert os k fs. induction m1 as [|r0 m1 IH]; intros [file g n] k fs Hgood Hfit Hshort Hk;
    simpl in Hgood; subst g.
  - exists (substring 0 n (row_text r)).
    cbn [app length write_rows matrix_text] in *. unfold write. cbn [good room path].
    simpl in Hshort.
    assert ((String.length (row_text r) <=? n) = false) as ->
      by (apply Nat.leb_gt; lia).
    cbn [good negb]. rewrite incr_of_nat by (simpl in Hk; lia).
    replace (k + 1) with (S k) by lia. done.
  - cbn [app length write_rows matrix_text] in *. unfold write. cbn [good room path] in *.
    rewrite length_append in Hfit, Hshort.
    assert ((String.length (row_text r0) <=? n) = true) as ->
      by (apply Nat.leb_le; lia).
    cbn [good negb]. rewrite incr_of_nat by lia.
    destruct (IH (OStream file true (n - String.length (row_text r0))) (S k)
                (alter (fun c => c +:+ row_text r0) file fs))
      as [rest Hrest].
    { reflexivity. }
    { simpl. lia. }
    { simpl. lia. }
    { lia. }
    rewrite Hrest. exists rest. replace (S k + S (length m1)) with (k + S (S (length m1))) by lia.
    f_equal. rewrite alter_alter_eq. apply alter_ext. intros c _. simpl.
    by rewrite !append_assoc.
Qed.

(** X9: in single-file mode the output file is opened without a check,
    so a file that cannot be opened shows as the failure to write row 1,
    with no file changed; and when the file takes the first rows but not
    the next one, the run stops with the number of that row, the rows
    before it standing at the head of the file. *)
Theorem single_file_write_failure dev req fs content (m : matrix) :
  fs !! inputFileName req = Some content →
  read_matrix req (cu.extractByLine content) = Ok m →
  shallCreateFileForEachRow req = false →
  (dev (outputFileNames req) = None →
     runConversion dev req fs
     = (Throw (failed_to_write 1 (outputFileNames req)), fs)) ∧
  (∀ n m1 r m2,
     dev (outputFileNames req) = Some n →
     m = m1 ++ r :: m2 →
     String.length (matrix_text m1) ≤ n →
     n < String.length (matrix_text m1) + String.length (row_text r) →
     (N.of_nat (S (length m1)) < size_max)%N →
     ∃ rest,
       runConversion dev req fs
       = (Throw (failed_to_write (N.of_nat (S (length m1))) (outputFileNames req)),
          <[outputFileNames req := matrix_text m1 +:+ rest]> fs)).
Proof.
  intros Hin Hread Hsplit.
  pose proof (read_matrix_nonempty _ _ _ Hread) as Hm.
  rewrite !runConversion_eq. unfold write_matrix, open. rewrite Hin, Hread, Hsplit. split.
  - intros ->. destruct m as [|r m]; [done|]. reflexivity.
  - intros n m1 r m2 -> -> Hfit Hshort Hk.
    change 0%N with (N.of_nat 0).
    destruct (write_rows_fails (outputFileNames req)
                (OStream (outputFileNames req) true n) 0 m1 r m2
                (<[outputFileNames req := EmptyString]> fs))
      as [rest ->]; try done.
    exists rest. simpl path. by rewrite alter_insert_eq.
Qed.

Lemma single_file_write_failure_witness :
  let req := Sample.request_of false false "out.txt" "" in
  let content := "1 2" +:+ Sample.nl +:+ "3 4" in
  let fs : files := {[ "in.txt" := content ]} in
  let m := [[Sample.num "1"; Sample.num "2"]; [Sample.num "3"; Sample.num "4"]] in
  let dev : device := fun name => if String.eqb name "out.txt" then Some 7 else None in
  (fs !! inputFileName req = Some content ∧
   read_matrix req (cu.extractByLine content) = Ok m) ∧
  ∃ rest, runConversion dev req fs
          = (Throw (failed_to_write 2 "out.txt"),
             <["out.txt" := "1 2 " +:+ Sample.nl +:+ rest]> fs).
Proof.
  intros req content fs m dev.
  assert (read_matrix req (cu.extractByLine content) = Ok m) as H1
    by (vm_compute; reflexivity).
  split; [done|].
  destruct (single_file_write_failure dev req fs content m eq_refl H1 eq_refl)
    as [_ H].
  destruct (H 7 [[Sample.num "1"; Sample.num "2"]] [Sample.num "3"; Sample.num "4"] [])
    as [rest Hrun].
  - reflexivity.
  - reflexivity.
  - apply Nat.leb_le. vm_compute. reflexivity.
  - apply Nat.ltb_lt. vm_compute. reflexivity.
  - vm_compute. reflexivity.
  - exists rest. exact Hrun.
Defined.

(** ** The text of the output *)

Section Text.

Import Chars Format.

Lemma no_space_append s t : no_space (s +:+ t) = no_space s && no_space t.
Proof.
  induction s as [|c s IH]; [done|]. rewrite append_cons. simpl.
  by rewrite IH, andb_assoc.
Qed.

Lemma no_space_substring n k s : no_space s = true → no_space (substring n k s) = true.
Proof.
  revert n k. induction s as [|c s IH]; intros [|n] [|k]; simpl; try done.
  - intros [Hc Hs]%andb_true_iff. rewrite Hc. simpl. by apply IH.
  - intros [_ Hs]%andb_true_iff. by apply IH.
  - intros [_ Hs]%andb_true_iff. by apply IH.
Qed.

Lemma no_space_strip_zeros s : no_space s = true → no_space (strip_zeros s) = true.
Proof.
  induction s as [|c s IH]; [done|]. simpl.
  intros [Hc Hs]%andb_true_iff. specialize (IH Hs).
  destruct (strip_zeros s).
  - destruct (Ascii.eqb c "0"); simpl; [done|]. by rewrite Hc.
  - simpl in *. by rewrite Hc, IH.
Qed.

Lemma no_space_zeros n : no_space (zeros n) = true.
Proof. induction n as [|n IH]; [done|]. simpl. exact IH. Qed.

Lemma no_space_to_string n : no_space (to_string n) = true.
Proof.
  pose proof (to_string_digits n) as H. revert H.
  generalize (to_string n). intros s. induction s as [|c s IH]; intros H; [done|].
  simpl. rewrite IH.
  - specialize (H EmptyString c s eq_refl). rewrite andb_true_r.
    unfold isdigit, isspace in *.
    destruct c as [[] [] [] [] [] [] [] []]; try discriminate; reflexivity.
  - intros u d t E. apply (H (String c u) d t). by rewrite E.
Qed.

Lemma no_space_with_fraction a b :
  no_space a = true → no_space b = true → no_space (with_fraction a b) = true.
Proof.
  intros Ha Hb%no_space_strip_zeros. unfold with_fraction.
  destruct (strip_zeros b) eqn:E; [done|].
  rewrite !no_space_append, Ha, Hb. done.
Qed.

Lemma no_space_format_g num den : no_space (format_g num den) = true.
Proof.
  unfold format_g. destruct (significand num den) as [q x].
  pose proof (no_space_to_string (Z.to_N q)) as Hds.
  destruct ((-4 <=? x)%Z && (x <? precision)%Z).
  - destruct (0 <=? x)%Z.
    + apply no_space_with_fraction; by apply no_space_substring.
    + apply no_space_with_fraction; [done|].
      by rewrite no_space_append, no_space_zeros, Hds.
  - rewrite no_space_append. apply andb_true_iff. split.
    + apply no_space_with_fraction; by apply no_space_substring.
    + unfold exponent_field. rewrite !no_space_append, no_space_to_string.
      destruct (x <? 0)%Z, (Z.to_N (Z.abs x) <? 10)%N; reflexivity.
Qed.

Lemma no_space_put_double d : no_space (put_double d) = true.
Proof.
  destruct d as [[]|[]| |[] m e]; try reflexivity;
    unfold put_double; rewrite no_space_append; destruct e;
    by rewrite no_space_format_g.
Qed.

Lemma count_char_append c s t :
  count_char c (s +:+ t) = count_char c s + count_char c t.
Proof.
  induction s as [|d s IH]; [done|]. rewrite append_cons. simpl. rewrite IH. lia.
Qed.

Lemma count_char_no_space c s :
  isspace c = true → no_space s = true → count_char c s = 0.
Proof.
  intros Hc. induction s as [|d s IH]; [done|]. simpl.
  intros [Hd Hs]%andb_true_iff. rewrite (IH Hs).
  destruct (Ascii.eqb c d) eqn:E; [|done].
  apply Ascii.eqb_eq in E as <-. by rewrite Hc in Hd.
Qed.

Lemma count_blank_copy_row (r : row) : count_char " " (copy_row r) = length r.
Proof.
  induction r as [|x r IH]; [done|]. cbn [copy_row length].
  rewrite !count_char_append, IH.
  rewrite (count_char_no_space " " _ eq_refl (no_space_put_double x)). done.
Qed.

Lemma count_newline_copy_row (r : row) : count_char newline (copy_row r) = 0.
Proof.
  induction r as [|x r IH]; [done|]. cbn [copy_row].
  rewrite !count_char_append, IH.
  rewrite (count_char_no_space newline _ eq_refl (no_space_put_double x)). done.
Qed.

End Text.

Lemma count_newline_matrix_text (m : matrix) :
  count_char Chars.newline (matrix_text m) = length m.
Proof.
  induction m as [|r m IH]; [done|]. cbn [matrix_text length].
  unfold row_text. rewrite !count_char_append, IH, count_newline_copy_row. done.
Qed.

(** X10: the text that is written has the shape of the matrix: the text
    of a row has one blank per value and ends with its only line
    terminator, so that the text of a matrix has as many line terminators
    as the matrix has rows and as many blanks as it has values. *)
Theorem output_text_shape (m : matrix) :
  count_char Chars.newline (matrix_text m) = length m ∧
  count_char " " (matrix_text m) = length (concat m) ∧
  ∀ r : row,
    row_text r = copy_row r +:+ String Chars.newline EmptyString ∧
    count_char " " (copy_row r) = length r ∧
    count_char Chars.newline (copy_row r) = 0.
Proof.
  split; [|split].
  - apply count_newline_matrix_text.
  - induction m as [|r m IH]; [done|]. cbn [matrix_text concat].
    unfold row_text. rewrite !count_char_append, IH, count_blank_copy_row.
    rewrite length_app. simpl. lia.
  - intros r. split; [done|].
    split; [apply count_blank_copy_row|apply count_newline_copy_row].
Qed.

(** ** Transposition and concatenation *)

(** X12: transposing rows that stand one block behind another puts the
    transposed blocks side by side: row [j] of the result is row [j] of
    the first transposition followed by row [j] of the second. *)
Theorem transposed_app {A : Type} (C : nat) (m1 m2 : list (list A)) :
  Forall (fun r => length r = C) m1 →
  Forall (fun r => length r = C) m2 →
  transposed C (m1 ++ m2) = zip_with app (transposed C m1) (transposed C m2).
Proof.
  intros H1 H2. apply list_eq. intros j.
  destruct (decide (j < C)) as [Hj|Hj].
  - rewrite lookup_zip_with.
    rewrite !transposed_lookup by (try apply Forall_app; auto).
    simpl. unfold column. by rewrite omap_app.
  - rewrite !lookup_ge_None_2; [done| |].
    + rewrite length_zip_with, !transposed_length. lia.
    + rewrite transposed_length. lia.
Qed.

Lemma transposed_app_witness :
  (Forall (fun r => length r = 2) [[1; 2]; [3; 4]] ∧
   Forall (fun r => length r = 2) [[5; 6]]) ∧
  transposed 2 ([[1; 2]; [3; 4]] ++ [[5; 6]])
  = zip_with app (transposed 2 [[1; 2]; [3; 4]]) (transposed 2 [[5; 6]]).
Proof.
  assert (Forall (fun r => length r = 2) [[1; 2]; [3; 4]]) as H1
    by (repeat constructor).
  assert (Forall (fun r => length r = 2) [[5; 6]]) as H2 by (repeat constructor).
  split; [done|]. exact (transposed_app 2 _ _ H1 H2).
Defined.

(** ** White space at the head of a line *)

Lemma copy_doubles_S fuel ins :
  copy_doubles (S fuel) ins
  = match extract ins with
    | (Some x, ins') => let '(xs, ins'') := copy_doubles fuel ins' in (x :: xs, ins'')
    | (None, ins') => ([], ins')
    end.
Proof. reflexivity. Qed.

(** X13: white space at the head of a line is skipped: the line gives
    the same values and the same final stream state without it. *)
Theorem leading_white_space_ignored (c : ascii) (line : string) :
  Chars.isspace c = true → parse_line (String c line) = parse_line line.
Proof.
  intros Hc. unfold parse_line, istringstream_of.
  change (String.length (String c line)) with (S (String.length line)).
  rewrite (copy_doubles_S (S (String.length line))).
  rewrite (copy_doubles_S (String.length line) (IStream line false false)).
  assert (extract (IStream (String c line) false false)
          = extract (IStream line false false)) as ->.
  { unfold extract, Double.get_double. cbn [eofbit failbit unread orb].
    cbn [Double.skipws]. by rewrite Hc. }
  destruct (extract (IStream line false false)) as [[x|] ins] eqn:E; [|done].
  apply extract_progress in E. cbn [unread] in E.
  by rewrite (copy_doubles_fuel _ _ E).
Qed.

Lemma leading_white_space_ignored_witness :
  Chars.isspace " " = true ∧ parse_line " 1 2" = parse_line "1 2".
Proof.
  split; [reflexivity|].
  exact (leading_white_space_ignored " " "1 2" eq_refl).
Defined.

(** ** Lines of integers *)

Section Integers.

Import Chars Double.

Lemma read_digits_count acc k s :
  read_digits acc k s
  = let '(v, n, r) := read_digits acc 0 s in (v, k + n, r).
Proof.
  revert acc k. induction s as [|c s IH]; intros acc k; simpl.
  - by rewrite Nat.add_0_r.
  - destruct (isdigit c); [|by rewrite Nat.add_0_r].
    rewrite (IH _ (S k)), (IH _ 1).
    destruct (read_digits (10 * acc + digit_value c) 0 s) as [[v n] r].
    f_equal. f_equal. lia.
Qed.

(** Reading the digits of a decimal number, most significant first. *)
Lemma read_digits_uint (d : Decimal.uint) (acc : Z) rest :
  (∀ c s, rest = String c s → isdigit c = false) →
  read_digits acc 0 (NilEmpty.string_of_uint d +:+ rest)
  = ((acc * 10 ^ Z.of_N (DecimalPos.Unsigned.usize d)
      + Z.of_N (DecimalPos.Unsigned.of_lu (Decimal.rev d)))%Z,
     N.to_nat (DecimalPos.Unsigned.usize d), rest).
Proof.
  intros Hrest. revert acc.
  assert (∀ acc, read_digits acc 0 rest = (acc, 0, rest)) as Hbase.
  { intros acc. destruct rest as [|c s]; [done|]. simpl.
    by rewrite (Hrest c s eq_refl). }
  induction d as [|d IH|d IH|d IH|d IH|d IH|d IH|d IH|d IH|d IH|d IH];
    intros acc.
  { cbn [NilEmpty.string_of_uint]. rewrite append_nil_l, Hbase. simpl.
    f_equal. f_equal. lia. }
  all: cbn [NilEmpty.string_of_uint]; rewrite append_cons;
    cbn [read_digits]; change (isdigit _) with true; cbv iota;
    rewrite read_digits_count, IH;
    unfold Decimal.rev at 2; cbn [Decimal.revapp];
    rewrite (DecimalPos.Unsigned.of_lu_revapp d (_ Decimal.Nil));
    cbn [DecimalPos.Unsigned.usize DecimalPos.Unsigned.of_lu];
    apply (f_equal2 pair); [apply (f_equal2 pair)|reflexivity]; [|lia];
    unfold digit_value;
    match goal with
    | |- context [Z.of_nat (nat_of_ascii ?c)] =>
        let v := eval vm_compute in (Z.of_nat (nat_of_ascii c)) in
        change (Z.of_nat (nat_of_ascii c)) with v
    end;
    rewrite N2Z.inj_succ, Z.pow_succ_r by lia;
    rewrite N2Z.inj_add, N2Z.inj_mul, N2Z.inj_pow;
    simpl Z.of_N; ring.
Qed.

Lemma extract_digits_uint (d : Decimal.uint) fm t :
  extract_digits fm false false false
    (NilEmpty.string_of_uint d +:+ String " " t)
  = (NilEmpty.string_of_uint d, String " " t).
Proof.
  revert fm.
  induction d as [|d IH|d IH|d IH|d IH|d IH|d IH|d IH|d IH|d IH|d IH];
    intros fm; cbn [NilEmpty.string_of_uint];
    rewrite ?append_nil_l, ?append_cons; [reflexivity|..];
    cbn [extract_digits]; change (isdigit _) with true; cbn [andb orb];
    by rewrite IH.
Qed.

Lemma skip_zeros_uint (d : Decimal.uint) t :
  skip_zeros (NilEmpty.string_of_uint d +:+ String " " t)
  = NilEmpty.string_of_uint (Decimal.nzhead d) +:+ String " " t.
Proof.
  induction d as [|d IH|d IH|d IH|d IH|d IH|d IH|d IH|d IH|d IH|d IH];
    cbn [NilEmpty.string_of_uint Decimal.nzhead];
    rewrite ?append_nil_l, ?append_cons; try reflexivity.
  cbn [skip_zeros]. exact IH.
Qed.

Lemma of_uint_nzhead (d : Decimal.uint) :
  Pos.of_uint (Decimal.nzhead d) = Pos.of_uint d.
Proof.
  induction d; try reflexivity. simpl. exact IHd.
Qed.

(** Stage 2 on an unsigned decimal followed by a blank: the digits are
    taken, leading zeros but one dropped, and the blank is left. *)
Lemma extract_float_uint (d : Decimal.uint) t :
  d ≠ Decimal.Nil →
  ∃ d2, d2 ≠ Decimal.Nil ∧ Pos.of_uint d2 = Pos.of_uint d ∧
        extract_float (NilEmpty.string_of_uint d +:+ String " " t)
        = (NilEmpty.string_of_uint d2, String " " t).
Proof.
  intros Hd. destruct d as [|d|d|d|d|d|d|d|d|d|d]; [done|..].
  { exists (Decimal.D0 (Decimal.nzhead d)). split; [done|].
    split; [simpl; apply of_uint_nzhead|].
    cbn [NilEmpty.string_of_uint]. rewrite append_cons.
    unfold extract_float. change (is_plus "0" || is_minus "0") with false.
    cbv iota. unfold extract_mantissa.
    rewrite skip_zeros_uint, extract_digits_uint. done. }
  all: match goal with
       | |- ∃ d2, _ ∧ _ = Pos.of_uint ?D ∧ _ =>
           exists D; split; [done|]; split; [done|];
           exact (extract_digits_uint D false t)
       end.
Qed.

Lemma usize_nonnil (d : Decimal.uint) :
  d ≠ Decimal.Nil → N.to_nat (DecimalPos.Unsigned.usize d) ≠ 0.
Proof. destruct d; [done|..]; intros _; cbn [DecimalPos.Unsigned.usize]; lia. Qed.

(** Stage 3 on the digits of an unsigned decimal. *)
Lemma convert_to_v_uint (d : Decimal.uint) :
  d ≠ Decimal.Nil →
  finite (of_decimal false (Z.of_N (Pos.of_uint d)) 0) = true →
  convert_to_v (NilEmpty.string_of_uint d)
  = Some (of_decimal false (Z.of_N (Pos.of_uint d)) 0).
Proof.
  intros Hd Hfin. unfold convert_to_v, strtod.
  assert (read_sign (NilEmpty.string_of_uint d)
          = (false, NilEmpty.string_of_uint d)) as ->.
  { destruct d; [done|..]; reflexivity. }
  rewrite <- (append_nil_r (NilEmpty.string_of_uint d)).
  rewrite read_digits_uint by (intros c s; discriminate).
  rewrite <- DecimalPos.Unsigned.of_uint_alt. rewrite Z.mul_0_l, Z.add_0_l.
  rewrite Nat.add_0_r.
  destruct (N.to_nat (DecimalPos.Unsigned.usize d) =? 0) eqn:E.
  { apply Nat.eqb_eq in E. by apply usize_nonnil in E. }
  change (- Z.of_nat 0)%Z with 0%Z.
  by destruct (of_decimal false (Z.of_N (Pos.of_uint d)) 0).
Qed.

Lemma to_uint_nonnil (n : N) : N.to_uint n ≠ Decimal.Nil.
Proof. destruct n as [|p]; [done|]. apply DecimalPos.Unsigned.to_uint_nonnil. Qed.

(** One extraction on an unsigned integer followed by a blank gives the
    double nearest to it and leaves the blank. *)
Lemma get_double_integer (n : N) t :
  finite (integer_value n) = true →
  get_double (to_string n +:+ String " " t) = (Some (integer_value n), String " " t).
Proof.
  intros Hfin. unfold get_double, to_string.
  pose proof (to_uint_nonnil n) as Hd.
  assert (skipws (NilEmpty.string_of_uint (N.to_uint n) +:+ String " " t)
          = NilEmpty.string_of_uint (N.to_uint n) +:+ String " " t) as Hws.
  { destruct (N.to_uint n); [done|..]; reflexivity. }
  rewrite Hws.
  destruct (extract_float_uint (N.to_uint n) t Hd) as (d2 & Hd2 & Hval & Hex).
  destruct (NilEmpty.string_of_uint (N.to_uint n) +:+ String " " t) eqn:E.
  { destruct (N.to_uint n); discriminate. }
  rewrite Hex.
  assert (Pos.of_uint d2 = n) as Hn.
  { rewrite Hval. apply DecimalN.Unsigned.of_to. }
  rewrite convert_to_v_uint; rewrite ?Hn; done.
Qed.

Lemma extract_integer (n : N) t :
  finite (integer_value n) = true →
  extract (IStream (to_string n +:+ String " " t) false false)
  = (Some (integer_value n), IStream (String " " t) false false).
Proof.
  intros Hfin. unfold extract. cbn [eofbit failbit unread orb].
  by rewrite get_double_integer.
Qed.

Lemma extract_skip_blank t :
  extract (IStream (String " " t) false false) = extract (IStream t false false).
Proof. reflexivity. Qed.

Lemma copy_doubles_integers (ns : list N) fuel :
  Forall (fun n => finite (integer_value n) = true) ns →
  String.length (integers_text ns) < fuel →
  copy_doubles fuel (IStream (integers_text ns) false false)
  = (map integer_value ns, IStream EmptyString true true).
Proof.
  intros Hfin. revert fuel. induction Hfin as [|n ns Hn _ IH]; intros fuel Hlen.
  - destruct fuel as [|fuel]; [lia|]. reflexivity.
  - destruct fuel as [|fuel]; [lia|].
    cbn [integers_text] in *. rewrite !length_append in Hlen. simpl in Hlen.
    cbn [copy_doubles]. change (" " +:+ integers_text ns)
      with (String " " (integers_text ns)).
    rewrite extract_integer by done.
    destruct fuel as [|fuel]; [lia|].
    cbn [copy_doubles]. rewrite extract_skip_blank.
    change (match extract (IStream (integers_text ns) false false) with
            | (Some x, ins') =>
                let '(xs, ins'') := copy_doubles fuel ins' in (x :: xs, ins'')
            | (None, ins') => ([], ins')
            end)
      with (copy_doubles (S fuel) (IStream (integers_text ns) false false)).
    rewrite IH by lia. reflexivity.
Qed.

End Integers.

(** X14: a line of unsigned integers, each followed by a blank, is read
    to its end and gives, in order, the doubles nearest to the integers,
    as long as none of them is beyond the range of a double. *)
Theorem integer_line_read (ns : list N) :
  Forall (fun n => finite (integer_value n) = true) ns →
  parse_line (integers_text ns)
  = (map integer_value ns, IStream EmptyString true true) ∧
  parsed_to_end (integers_text ns).
Proof.
  intros Hfin.
  assert (parse_line (integers_text ns)
          = (map integer_value ns, IStream EmptyString true true)) as H.
  { unfold parse_line. apply copy_doubles_integers; [done|lia]. }
  split; [exact H|]. unfold parsed_to_end. by rewrite H.
Qed.

Lemma integer_line_read_witness :
  Forall (fun n => finite (integer_value n) = true) [12; 0; 7]%N ∧
  parse_line "12 0 7 "
  = ([integer_value 12; integer_value 0; integer_value 7],
     IStream EmptyString true true).
Proof.
  assert (Forall (fun n => finite (integer_value n) = true) [12; 0; 7]%N) as H
    by (repeat constructor).
  split; [exact H|]. exact (proj1 (integer_line_read [12; 0; 7]%N H)).
Defined.

(** ** Telling the exceptions apart *)

(** X15: the nine exceptions of a run are pairwise different texts,
    whatever line or row numbers and file names they carry, so that the
    message alone tells which check has failed; and the exception of a
    failed write determines the row number and the name of the file. *)
Theorem exceptions_distinct (n n' : N) (f f' : string) :
  could_not_open f ≠ could_not_be_read f' ∧
  could_not_open f ≠ end_not_reached f' ∧
  could_not_open f ≠ could_not_be_parsed n' f' ∧
  could_not_open f ≠ no_samples f' ∧
  could_not_open f ≠ different_number_of_samples n' ∧
  could_not_open f ≠ nothing_to_replace ∧
  could_not_open f ≠ replacement_not_found ∧
  could_not_open f ≠ failed_to_write n' f' ∧
  could_not_be_read f ≠ end_not_reached f' ∧
  could_not_be_read f ≠ could_not_be_parsed n' f' ∧
  could_not_be_read f ≠ no_samples f' ∧
  could_not_be_read f ≠ different_number_of_samples n' ∧
  could_not_be_read f ≠ nothing_to_replace ∧
  could_not_be_read f ≠ replacement_not_found ∧
  could_not_be_read f ≠ failed_to_write n' f' ∧
  end_not_reached f ≠ could_not_be_parsed n' f' ∧
  end_not_reached f ≠ no_samples f' ∧
  end_not_reached f ≠ different_number_of_samples n' ∧
  end_not_reached f ≠ nothing_to_replace ∧
  end_not_reached f ≠ replacement_not_found ∧
  end_not_reached f ≠ failed_to_write n' f' ∧
  could_not_be_parsed n f ≠ no_samples f' ∧
  could_not_be_parsed n f ≠ different_number_of_samples n' ∧
  could_not_be_parsed n f ≠ nothing_to_replace ∧
  could_not_be_parsed n f ≠ replacement_not_found ∧
  could_not_be_parsed n f ≠ failed_to_write n' f' ∧
  no_samples f ≠ different_number_of_samples n' ∧
  no_samples f ≠ nothing_to_replace ∧
  no_samples f ≠ replacement_not_found ∧
  no_samples f ≠ failed_to_write n' f' ∧
  different_number_of_samples n ≠ nothing_to_replace ∧
  different_number_of_samples n ≠ replacement_not_found ∧
  different_number_of_samples n ≠ failed_to_write n' f' ∧
  nothing_to_replace ≠ replacement_not_found ∧
  nothing_to_replace ≠ failed_to_write n' f' ∧
  replacement_not_found ≠ failed_to_write n' f' ∧
  (failed_to_write n f = failed_to_write n' f' → n = n' ∧ f = f').
Proof.
  repeat (split; [first [discriminate|apply could_not_be_read_no_samples]|]).
  apply failed_to_write_inj.
Qed.

(** ** The shape of a transposed output *)

(** X16: with the transposition asked for, the text of the matrix has
    one line for every value of the first row with values of the input
    and, on every line, one value for every such row of the input. *)
Theorem transposed_output_shape req lines (m : matrix) :
  shallTranspose req = true →
  read_matrix req lines = Ok m →
  ∃ (front : row) (v : matrix),
    remove_empty_rows (map (fun l => (parse_line l).1) lines) = front :: v ∧
    count_char Chars.newline (matrix_text m) = length front ∧
    Forall (fun r => count_char " " (copy_row r) = length (front :: v)) m.
Proof.
  intros Ht (_ & front & v & Hv & Hrect & ->)%read_matrix_Ok_elim.
  rewrite Ht. exists front, v. split; [done|].
  assert (rectangular (length (front :: v)) (length front) (front :: v)) as Hr
    by (split; [done|by constructor]).
  destruct (transposed_rectangular _ _ _ Hr) as [Hlen Hrows].
  split.
  - by rewrite count_newline_matrix_text.
  - eapply Forall_impl; [exact Hrows|].
    intros r Hlenr. simpl in Hlenr. by rewrite count_blank_copy_row.
Qed.

Lemma transposed_output_shape_witness :
  let req := Sample.request_of true false "out.txt" "" in
  let m := [[Sample.num "1"; Sample.num "4"]; [Sample.num "2"; Sample.num "5"];
            [Sample.num "3"; Sample.num "6"]] in
  (shallTranspose req = true ∧ read_matrix req ["1 2 3"; ""; "4 5 6"] = Ok m) ∧
  ∃ (front : row) (v : matrix),
    remove_empty_rows (map (fun l => (parse_line l).1) ["1 2 3"; ""; "4 5 6"])
    = front :: v ∧
    count_char Chars.newline (matrix_text m) = length front ∧
    Forall (fun r => count_char " " (copy_row r) = length (front :: v)) m.
Proof.
  intros req m.
  assert (read_matrix req ["1 2 3"; ""; "4 5 6"] = Ok m) as H
    by (vm_compute; reflexivity).
  split; [by split|].
  exact (transposed_output_shape req _ m eq_refl H).
Defined.
